(** * Docktor: remote build-and-scan pipeline

    A shallow embedding of the parts of the Go sources that carry the
    behaviour of the scan pipeline:

    - [Scanner]: the report type and [FilterBySeverity] of package
      [scanner];
    - [Gcp]: [BuildAndScanImage] (the polling loop), [getScanResults]
      (retrieval, raw dump, parsing, HTML report), [Cleanup] and the
      context archiver of [internal/gcp/client.go];
    - [Cmd]: the [scan] command of package [cmd].

    Go strings are [string]; a Go [map] is a [gmap]; Go's [int] values
    that occur here are small and only compared, they are kept in [Z];
    an [error] is a value of the inductive type [error]. *)

From Stdlib Require Import ZArith Strings.Ascii Strings.Byte.
From stdpp Require Import base option list gmap strings.

Local Open Scope Z_scope.

(** Reading a Go map: a missing key yields the zero value of the
    element type. *)
Definition index {V} (zero : V) (m : gmap string V) (k : string) : V :=
  default zero (m !! k).

(* ================================================================== *)
(** ** Package scanner *)
(* ================================================================== *)

Module Scanner.

Definition Severity : Type := string.

Definition SeverityCritical : Severity := "CRITICAL".
Definition SeverityHigh     : Severity := "HIGH".
Definition SeverityMedium   : Severity := "MEDIUM".
Definition SeverityLow      : Severity := "LOW".
Definition SeverityUnknown  : Severity := "UNKNOWN".

Record Vulnerability : Type := mkVulnerability {
  ID          : string;
  Title       : string;
  Description : string;
  severity    : Severity;
  Package     : string;
  Version     : string;
  FixedIn     : string;
  URL         : string
}.

Record ScanReport : Type := mkScanReport {
  ImageName       : string;
  ScanTime        : string;
  Vulnerabilities : list Vulnerability
}.

(** The map literal of [FilterBySeverity]. *)
Definition severityOrder : gmap string Z :=
  <[SeverityCritical := 4]>
    (<[SeverityHigh := 3]>
      (<[SeverityMedium := 2]>
        (<[SeverityLow := 1]>
          (<[SeverityUnknown := 0]> ∅)))).

(** [severityOrder[s]]. *)
Definition level (s : Severity) : Z := index 0 severityOrder s.

(** One iteration of the [for _, vuln := range r.Vulnerabilities] loop:
    [filtered.Vulnerabilities] is the accumulator. *)
Definition keep (minSeverityLevel : Z) (acc : list Vulnerability)
    (vuln : Vulnerability) : list Vulnerability :=
  if bool_decide (level (severity vuln) >= minSeverityLevel)
  then acc ++ [vuln]
  else acc.

Definition FilterBySeverity (r : ScanReport) (minSeverity : Severity)
    : ScanReport :=
  let minSeverityLevel := level minSeverity in
  {| ImageName := ImageName r;
     ScanTime := ScanTime r;
     Vulnerabilities :=
       foldl (keep minSeverityLevel) [] (Vulnerabilities r) |}.

(** A severity string that is none of the five constants. *)
Definition unnamed (s : Severity) : Prop :=
  s ≠ SeverityCritical ∧ s ≠ SeverityHigh ∧ s ≠ SeverityMedium ∧
  s ≠ SeverityLow ∧ s ≠ SeverityUnknown.

End Scanner.

(* ================================================================== *)
(** ** Go library functions used by the sources *)
(* ================================================================== *)

(** [strings] and [path/filepath], on ASCII strings and with [/] as the
    path separator. *)
Module GoStrings.

Definition slash : ascii := "/"%char.

(** [strings.HasPrefix(s, prefix)] *)
Definition HasPrefix (s prefix : string) : bool := String.prefix prefix s.

(** [strings.HasSuffix(s, suffix)]:
    [len(s) >= len(suffix) && s[len(s)-len(suffix):] == suffix] *)
Definition HasSuffix (s suffix : string) : bool :=
  let n := String.length s in
  let m := String.length suffix in
  (m <=? n)%nat && String.eqb (String.substring (n - m) m s) suffix.

(** [strings.Contains(s, substr)] *)
Fixpoint Contains (s substr : string) : bool :=
  String.prefix substr s ||
  match s with
  | EmptyString => false
  | String _ s' => Contains s' substr
  end.

(** [strings.ToLower] on ASCII letters. *)
Definition lowerAscii (c : ascii) : ascii :=
  let n := Ascii.nat_of_ascii c in
  if (65 <=? n)%nat && (n <=? 90)%nat then Ascii.ascii_of_nat (n + 32) else c.

Fixpoint ToLower (s : string) : string :=
  match s with
  | EmptyString => EmptyString
  | String c s' => String (lowerAscii c) (ToLower s')
  end.

(** The first loop of [filepath.Base]: strip trailing slashes. *)
Fixpoint stripTrailingSlashes (path : string) : string :=
  match path with
  | EmptyString => EmptyString
  | String c rest =>
      match stripTrailingSlashes rest with
      | EmptyString => if Ascii.eqb c slash then EmptyString else String c EmptyString
      | rest' => String c rest'
      end
  end.

(** The second loop of [filepath.Base]: what follows the last slash;
    [cur] is the element read so far. *)
Fixpoint lastElement (cur path : string) : string :=
  match path with
  | EmptyString => cur
  | String c rest =>
      if Ascii.eqb c slash then lastElement EmptyString rest
      else lastElement (cur +:+ String c EmptyString) rest
  end.

(** [filepath.Base(path)] *)
Definition Base (path : string) : string :=
  if String.eqb path "" then "."
  else
    let path := lastElement "" (stripTrailingSlashes path) in
    if String.eqb path "" then "/" else path.

(** [filepath.Join(dir, name)] for a clean [dir] and a clean, relative,
    non-empty [name], where [filepath.Clean] changes nothing. *)
Definition Join (dir name : string) : string := dir +:+ "/" +:+ name.

End GoStrings.

(* ================================================================== *)
(** ** Package gcp (internal/gcp/client.go) *)
(* ================================================================== *)

Module Gcp.
Import GoStrings.

(** *** Errors *)

(** A Go [error]: either a value handed back by a library call, or
    [fmt.Errorf("<prefix>: %w", cause)]. *)
Inductive error : Type :=
| External (msg : string)
| Errorf (prefix : string) (cause : error).

(** The method [Error()]: the message of an error. *)
Fixpoint Error (err : error) : string :=
  match err with
  | External msg => msg
  | Errorf prefix cause => prefix +:+ ": " +:+ Error cause
  end.

(** [storage.ErrObjectNotExist] *)
Definition ErrObjectNotExist : error := External "storage: object doesn't exist".

(** *** Data *)

Record Vulnerability : Type := mkVulnerability {
  VulnerabilityID  : string;
  PkgName          : string;
  InstalledVersion : string;
  FixedVersion     : string;
  Severity         : string;
  Title            : string;
  Description      : string
}.

Record ScanResults : Type := mkScanResults {
  Vulnerabilities : list Vulnerability
}.

Record BuildResult : Type := mkBuildResult {
  ID          : string;
  Status      : string;
  StartTime   : string;
  EndTime     : string;
  Logs        : string;
  Scan        : ScanResults   (* field [ScanResults] *)
}.

(** The value [json.Unmarshal] fills in [getScanResults]: a list of
    result groups, each with its list of findings.  The anonymous struct
    of a finding has the seven string fields of [Vulnerability] and is
    represented by that record. *)
Record trivyResult : Type := mkTrivyResult {
  ResultVulnerabilities : list Vulnerability
}.

Record trivyOutput : Type := mkTrivyOutput {
  Results : list trivyResult
}.

(** [cloudbuild.Operation], as far as the client reads it. *)
Record Operation : Type := mkOperation {
  Done     : bool;
  Metadata : option (list byte)
}.

(** *** getScanResults: conversion of the decoded artifact *)

(** The struct literal of the inner loop copies the fields one by one. *)
Definition copyVulnerability (vuln : Vulnerability) : Vulnerability :=
  {| VulnerabilityID  := VulnerabilityID vuln;
     PkgName          := PkgName vuln;
     InstalledVersion := InstalledVersion vuln;
     FixedVersion     := FixedVersion vuln;
     Severity         := Severity vuln;
     Title            := Title vuln;
     Description      := Description vuln |}.

(** [for _, result := range results.Results {
       for _, vuln := range result.Vulnerabilities { append } }] *)
Definition convertResults (results : trivyOutput) : ScanResults :=
  {| Vulnerabilities :=
       foldl (λ acc result,
                foldl (λ acc vuln, acc ++ [copyVulnerability vuln])
                      acc (ResultVulnerabilities result))
             [] (Results results) |}.

(** [vulnsBySeverity[vuln.Severity] =
       append(vulnsBySeverity[vuln.Severity], vuln)] over the report. *)
Definition groupBySeverity (vulns : list Vulnerability)
    : gmap string (list Vulnerability) :=
  foldl (λ m vuln,
           <[Severity vuln := index [] m (Severity vuln) ++ [vuln]]> m)
        ∅ vulns.

(** *** getScanResults: the HTML report *)

(** The report file receives a sequence of [fmt.Fprintf] calls; each
    constructor is one call site with its arguments. *)
Inductive htmlWrite : Type :=
| Header (buildID generated : string)
| SeverityCard (class severity : string) (count : nat)
| SummaryEnd
| VulnOpen (class title pkgName installedVersion : string)
| FixedVersionLine (fixedVersion : string)
| VulnClose (description vulnerabilityID : string)
| Footer.

Definition severityOrder : list string := ["CRITICAL"; "HIGH"; "MEDIUM"; "LOW"].

(** "Write severity summary" *)
Definition writeSummary (vulnsBySeverity : gmap string (list Vulnerability))
    : list htmlWrite :=
  foldl (λ out severity,
           match vulnsBySeverity !! severity with
           | Some vulns =>
               out ++ [SeverityCard (ToLower severity) severity (length vulns)]
           | None => out
           end)
        [] severityOrder.

(** The writes for one vulnerability of the detail section. *)
Definition writeVulnerability (severity : string) (vuln : Vulnerability)
    : list htmlWrite :=
  [VulnOpen (ToLower severity) (Title vuln) (PkgName vuln) (InstalledVersion vuln)]
  ++ (if negb (String.eqb (FixedVersion vuln) "")
      then [FixedVersionLine (FixedVersion vuln)] else [])
  ++ [VulnClose (Description vuln) (VulnerabilityID vuln)].

(** "Write detailed findings" *)
Definition writeDetails (vulnsBySeverity : gmap string (list Vulnerability))
    : list htmlWrite :=
  foldl (λ out severity,
           match vulnsBySeverity !! severity with
           | Some vulns =>
               foldl (λ out vuln, out ++ writeVulnerability severity vuln)
                     out vulns
           | None => out
           end)
        [] severityOrder.

(** All writes to the report file, in order. *)
Definition writeReport (buildID generated : string) (vulns : list Vulnerability)
    : list htmlWrite :=
  let vulnsBySeverity := groupBySeverity vulns in
  [Header buildID generated]
  ++ writeSummary vulnsBySeverity
  ++ [SummaryEnd]
  ++ writeDetails vulnsBySeverity
  ++ [Footer].

(** *** getScanResults: the world it runs in *)

(** The object store: the objects by (bucket, name), and the failures
    the transport may inject into each call. *)
Record Storage : Type := mkStorage {
  objects     : gmap (string * string) (list byte);
  attrsFault  : option error;
  readerFault : option error;
  readFault   : option error;
  deleteFault : option error
}.

(** The local operating system: which calls fail. *)
Record LocalOS : Type := mkLocalOS {
  mkdirFault  : option error;
  writeFault  : option error;
  createFault : option error
}.

(** A file under the output directory: bytes written by [os.WriteFile],
    or the writes received by a file opened with [os.Create]. *)
Inductive file : Type :=
| RawFile (content : list byte)
| HtmlFile (writes : list htmlWrite).

(** [obj.Attrs(ctx)]: fails when the object is absent. *)
Definition Attrs (st : Storage) (obj : string * string) : option error :=
  match attrsFault st with
  | Some e => Some e
  | None => match objects st !! obj with
            | Some _ => None
            | None => Some ErrObjectNotExist
            end
  end.

(** [obj.NewReader(ctx)]; the reader is represented by the bytes it
    will deliver. *)
Definition NewReader (st : Storage) (obj : string * string)
    : list byte + error :=
  match readerFault st with
  | Some e => inr e
  | None => match objects st !! obj with
            | Some content => inl content
            | None => inr ErrObjectNotExist
            end
  end.

(** [io.ReadAll(reader)] *)
Definition ReadAll (st : Storage) (reader : list byte) : list byte + error :=
  match readFault st with
  | Some e => inr e
  | None => inl reader
  end.

(** [os.MkdirAll(dir, 0755)].  The disk maps the paths of files to
    their content; directories are not part of it. *)
Definition MkdirAll (os : LocalOS) (dir : string) : option error :=
  mkdirFault os.

(** Computations of [getScanResults]: they read and change the files on
    disk and may fail. *)
Definition M (A : Type) : Type :=
  gmap string file → (A + error) * gmap string file.

Definition ret {A} (a : A) : M A := λ disk, (inl a, disk).

Definition bind {A B} (m : M A) (k : A → M B) : M B :=
  λ disk, match m disk with
          | (inl a, disk') => k a disk'
          | (inr e, disk') => (inr e, disk')
          end.

(** [if err != nil { return nil, fmt.Errorf("<prefix>: %w", err) }]
    after a call that returns a value and an error. *)
Definition try {A} (r : A + error) (prefix : string) : M A :=
  λ disk, match r with
          | inl a => (inl a, disk)
          | inr e => (inr (Errorf prefix e), disk)
          end.

(** The same after a call that returns only an error. *)
Definition check (r : option error) (prefix : string) : M unit :=
  λ disk, match r with
          | None => (inl tt, disk)
          | Some e => (inr (Errorf prefix e), disk)
          end.

(** [os.WriteFile(path, content, 0644)].  What a failing call leaves
    at [path] (nothing, an empty or a cut-short file) is not modelled:
    the disk is handed back as it was, and nothing proved below speaks
    of the file at [path] after a failed write. *)
Definition WriteFile (os : LocalOS) (path : string) (content : list byte)
    (prefix : string) : M unit :=
  λ disk, match writeFault os with
          | Some e => (inr (Errorf prefix e), disk)
          | None => (inl tt, <[path := RawFile content]> disk)
          end.

(** [os.Create(path)]: the file exists and is empty afterwards. *)
Definition Create (os : LocalOS) (path : string) (prefix : string) : M unit :=
  λ disk, match createFault os with
          | Some e => (inr (Errorf prefix e), disk)
          | None => (inl tt, <[path := HtmlFile []]> disk)
          end.

(** A run of [fmt.Fprintf(htmlFile, ...)] calls; their results are not
    looked at by the caller.  The file is recorded by the writes issued
    to it, which are its content when every one of them succeeds. *)
Definition Fprintf (path : string) (ws : list htmlWrite) : M unit :=
  λ disk, match disk !! path with
          | Some (HtmlFile written) =>
              (inl tt, <[path := HtmlFile (written ++ ws)]> disk)
          | _ => (inl tt, disk)
          end.

#[global] Instance M_ret : MRet M := @ret.
#[global] Instance M_bind : MBind M := λ A B k m, bind m k.

(** [getScanResults(ctx, bucketName, buildID)].  [Unmarshal] is
    [json.Unmarshal] into the [results] struct and [generated] the
    formatted [time.Now()] of the report header.  The deferred
    [Close] calls, printing the report path and opening the browser do
    not change the returned value or the two files; they are left
    out. *)
Definition getScanResults
    (Unmarshal : list byte → trivyOutput + error) (generated : string)
    (st : Storage) (os : LocalOS) (bucketName buildID : string)
    : M ScanResults :=
  let obj := (bucketName, buildID +:+ "/scan-results.json") in
  _ ← check (Attrs st obj) "scan results file not found";
  reader ← try (NewReader st obj) "failed to read scan results";
  content ← try (ReadAll st reader) "failed to read scan results content";
  let docktorDir := "docktor" in
  _ ← check (MkdirAll os docktorDir) "failed to create docktor directory";
  let rawJSONPath := Join docktorDir (buildID +:+ "-raw.json") in
  _ ← WriteFile os rawJSONPath content "failed to save raw JSON file";
  results ← try (Unmarshal content) "failed to parse scan results";
  let scanResults := convertResults results in
  let htmlPath := Join docktorDir (buildID +:+ "-report.html") in
  _ ← Create os htmlPath "failed to create HTML report";
  _ ← Fprintf htmlPath
        (writeReport buildID generated (Vulnerabilities scanResults));
  mret scanResults.

(** [Cleanup(ctx, buildID)]: delete the uploaded context archive. *)
Definition Cleanup (st : Storage) (projectID buildID : string)
    : option error * Storage :=
  let bucketName := projectID +:+ "-docktor-builds" in
  let object := (bucketName, buildID +:+ "/context.tar.gz") in
  let deleted :=
    match deleteFault st with
    | Some e => inr e
    | None => match objects st !! object with
              | Some _ =>
                  inl {| objects := delete object (objects st);
                         attrsFault := attrsFault st;
                         readerFault := readerFault st;
                         readFault := readFault st;
                         deleteFault := deleteFault st |}
              | None => inr ErrObjectNotExist
              end
    end in
  match deleted with
  | inl st' => (None, st')
  | inr err => (Some (Errorf "failed to delete build context" err), st)
  end.

(** *** BuildAndScanImage *)

(** What the polling loop does, in order: the [n]-th status request
    (counting from 0) and [time.Sleep] with its duration in seconds. *)
Inductive event : Type :=
| Sample (n : nat)
| Sleep (seconds : Z).

(** The loop [for { ... }] of [BuildAndScanImage] between two
    iterations: how many status requests were made, how long it slept in
    total, what it did, and the value it returned, if it has. *)
Record poller (R : Type) : Type := mkPoller {
  samples  : nat;
  slept    : Z;
  trace    : list event;
  returned : option R
}.
Arguments mkPoller {R}.
Arguments samples {R}.
Arguments slept {R}.
Arguments trace {R}.
Arguments returned {R}.

Section Loop.
Context {R : Type}.
(** [c.buildService.Operations.Get(operation.Name).Do()], by request
    number. *)
Variable getOperation : nat → Operation + error.
(** [return nil, err] *)
Variable abort : error → R.
(** The body of [if op.Done { ... }], which ends in a [return]. *)
Variable finish : Operation → R.

Definition start : poller R :=
  {| samples := 0; slept := 0; trace := []; returned := None |}.

(** One iteration of the loop; a loop that has returned stays put. *)
Definition iteration (p : poller R) : poller R :=
  match returned p with
  | Some _ => p
  | None =>
      let n := samples p in
      match getOperation n with
      | inr err =>
          {| samples := S n; slept := slept p;
             trace := trace p ++ [Sample n];
             returned :=
               Some (abort (Errorf "failed to get operation status" err)) |}
      | inl op =>
          if Done op then
            {| samples := S n; slept := slept p;
               trace := trace p ++ [Sample n];
               returned := Some (finish op) |}
          else
            {| samples := S n; slept := slept p + 5;
               trace := trace p ++ [Sample n; Sleep 5];
               returned := None |}
      end
  end.

(** The loop after at most [fuel] iterations. *)
Definition run (fuel : nat) : poller R := Nat.iter fuel iteration start.
End Loop.

(** The remote build service and the steps before the loop: the result
    of each call. *)
Record BuildService : Type := mkBuildService {
  bucketAttrs   : option error;          (* bucket.Attrs *)
  bucketCreate  : option error;          (* bucket.Create *)
  uploadContext : option error;          (* createAndUploadContext *)
  dockerfileRel : string + error;        (* dockerfileArg, by filepath.Rel *)
  createBuild   : option error;          (* Projects.Builds.Create(...).Do() *)
  operationGet  : nat → Operation + error (* Operations.Get(...).Do() *)
}.

(** What [BuildAndScanImage] hands back, with the files on disk. *)
Definition outcome : Type := (BuildResult + error) * gmap string file.

Section BuildAndScanImage.
Variable Unmarshal : list byte → trivyOutput + error.
Variable generated : string.
(** Start and end time, from the operation metadata or the clock. *)
Variable buildTimes : Operation → string * string.
Variables (svc : BuildService) (st : Storage) (os : LocalOS).
Variables (projectID buildID : string).

Definition bucketName : string := projectID +:+ "-docktor-builds".

(** The body of [if op.Done { ... }]. *)
Definition completed (disk : gmap string file) (op : Operation) : outcome :=
  match getScanResults Unmarshal generated st os bucketName buildID disk with
  | (inr err, disk') =>
      (inr (Errorf "build completed but failed to get scan results" err), disk')
  | (inl scanResults, disk') =>
      (inl {| ID := buildID;
              Status := "SUCCESS";
              StartTime := fst (buildTimes op);
              EndTime := snd (buildTimes op);
              Logs := "https://console.cloud.google.com/cloud-build/builds/"
                      +:+ buildID +:+ "?project=" +:+ projectID;
              Scan := scanResults |}, disk')
  end.

(** The loop of [BuildAndScanImage]. *)
Definition waitForBuild (disk : gmap string file) (fuel : nat) : poller outcome :=
  run (operationGet svc) (λ err, (inr err, disk)) (completed disk) fuel.

(** [BuildAndScanImage]: [None] when the loop has not returned within
    [fuel] iterations. *)
Definition BuildAndScanImage (disk : gmap string file) (fuel : nat)
    : option outcome :=
  let created :=
    match bucketAttrs svc with
    | Some _ => bucketCreate svc
    | None => None
    end in
  match created with
  | Some err => Some (inr (Errorf "failed to create bucket" err), disk)
  | None =>
  match uploadContext svc with
  | Some err => Some (inr (Errorf "failed to upload build context" err), disk)
  | None =>
  match dockerfileRel svc with
  | inr err =>
      Some (inr (Errorf "failed to get relative path for Dockerfile" err), disk)
  | inl _ =>
  match createBuild svc with
  | Some err => Some (inr (Errorf "failed to create build" err), disk)
  | None => returned (waitForBuild disk fuel)
  end end end end.
End BuildAndScanImage.

(** *** createAndUploadContext: the walk over the build context *)

(** A directory tree; the entries of a directory are listed in the
    order [filepath.Walk] visits them. *)
#[local] Unset Elimination Schemes.
Inductive node : Type :=
| File (name : string)
| Dir (name : string) (entries : list node).
#[local] Set Elimination Schemes.

(** The closure [shouldExclude]; [gitignore] is the result of
    [loadGitignore] ([None] for [nil]), as its [MatchesPath]. *)
Definition shouldExclude (gitignore : option (string → bool)) (path : string)
    : bool :=
  let base := Base path in
  if Contains path "/node_modules/" || HasSuffix path "/node_modules" then true
  else if HasPrefix base "." then true
  else if String.eqb base ".git" then true
  else match gitignore with
       | Some MatchesPath => MatchesPath path
       | None => false
       end.

(** [filepath.Rel(contextPath, path)] for an entry [name] of the
    directory whose relative path is [dir] (empty for the root). *)
Definition relPath (dir name : string) : string :=
  if String.eqb dir "" then name else dir +:+ "/" +:+ name.

(** The walk function on the subtree [n] of directory [dir]: the names
    of the tar headers it writes.  An excluded directory is skipped
    whole ([filepath.SkipDir]). *)
Fixpoint walk (gitignore : option (string → bool)) (dir : string) (n : node)
    : list string :=
  match n with
  | File name =>
      let rel := relPath dir name in
      if shouldExclude gitignore rel then [] else [rel]
  | Dir name entries =>
      let rel := relPath dir name in
      if shouldExclude gitignore rel then []
      else rel :: flat_map (walk gitignore rel) entries
  end.

(** The header names of the archive built from the context [root]; the
    root itself is skipped. *)
Definition archiveEntries (gitignore : option (string → bool)) (root : node)
    : list string :=
  match root with
  | File _ => []
  | Dir _ entries => flat_map (walk gitignore "") entries
  end.

(** *** The Job Poller of the specification *)

(** The states the specification gives the poller, and the state the
    loop of [BuildAndScanImage] is in: [Submitted] until the first
    status response, [Running] while it goes on, [Succeeded] or [Failed]
    by what it returned. *)
Module PollerSpec.
Inductive state : Type :=
| Submitted | Running | Succeeded | Failed | TimedOut.
End PollerSpec.

Definition phase (p : poller outcome) : PollerSpec.state :=
  match returned p with
  | Some (inl _, _) => PollerSpec.Succeeded
  | Some (inr _, _) => PollerSpec.Failed
  | None =>
      match samples p with
      | O => PollerSpec.Submitted
      | S _ => PollerSpec.Running
      end
  end.

End Gcp.

(* ================================================================== *)
(** ** Package cmd: the scan command *)
(* ================================================================== *)

Module Cmd.
Import Gcp.

(** What the command prints. *)
Inductive output : Type :=
| Println (line : string)
| Printf (format : string) (args : list string).

(** The calls the command makes, with their results. *)
Record Calls : Type := mkCalls {
  LoadConfig        : option error;
  NewClient         : option error;
  AbsContext        : string + error;
  AbsDockerfile     : string + error;
  BuildAndScanImage : string → string → BuildResult + error;
  Cleanup           : string → option error
}.

(** "Print results" *)
Definition printResults (result : BuildResult) : list output :=
  [Printf "\nBuild completed with status: %s\n" [Status result];
   Printf "Build ID: %s\n" [ID result];
   Printf "Start time: %s\n" [StartTime result];
   Printf "End time: %s\n" [EndTime result];
   Printf "Logs: %s\n" [Logs result]].

(** [RunE] of [scanCmd]: what it printed and the error it returned. *)
Definition scanCmd (c : Calls) : list output * option error :=
  match LoadConfig c with
  | Some err => ([], Some (Errorf "failed to load configuration" err))
  | None =>
  match NewClient c with
  | Some err =>
      ([], Some (Errorf "failed to initialize Google Cloud Build client" err))
  | None =>
  match AbsContext c with
  | inr err => ([], Some (Errorf "failed to get absolute path for context" err))
  | inl absContextPath =>
  match AbsDockerfile c with
  | inr err =>
      ([], Some (Errorf "failed to get absolute path for Dockerfile" err))
  | inl absDockerfilePath =>
      let out := [Println "Starting build and scan..."] in
      match BuildAndScanImage c absContextPath absDockerfilePath with
      | inr err => (out, Some (Errorf "failed to build and scan image" err))
      | inl result =>
          let out := out ++ printResults result in
          match Cleanup c (ID result) with
          | Some err =>
              (out ++ [Printf "Warning: failed to cleanup build artifacts: %v\n"
                              [Error err]],
               None)
          | None => (out, None)
          end
      end
  end end end end.

End Cmd.

(* ================================================================== *)
(** ** Package scanner: the outputs of a report *)
(* ================================================================== *)

Module ScannerOutput.
Import GoStrings Scanner.

(** What [PrintSummary] prints: a line, or a format with its number. *)
Inductive output : Type :=
| Println (line : string)
| Printf (format : string) (n : Z).

(** [severityCount[vuln.Severity]++] over the report. *)
Definition severityCount (vulns : list Vulnerability) : gmap string Z :=
  foldl (λ m vuln, <[severity vuln := index 0 m (severity vuln) + 1]> m)
        ∅ vulns.

(** [PrintSummary] *)
Definition PrintSummary (r : ScanReport) : list output :=
  let severityCount := severityCount (Vulnerabilities r) in
  [ Println "\nScan Summary:";
    Printf "Total vulnerabilities: %d\n" (Z.of_nat (length (Vulnerabilities r)));
    Printf "Critical: %d\n" (index 0 severityCount SeverityCritical);
    Printf "High: %d\n" (index 0 severityCount SeverityHigh);
    Printf "Medium: %d\n" (index 0 severityCount SeverityMedium);
    Printf "Low: %d\n" (index 0 severityCount SeverityLow);
    Printf "Unknown: %d\n" (index 0 severityCount SeverityUnknown) ].

(** The pieces [GenerateHTML] writes to its [strings.Builder]: the
    document head with the image name and scan time, one table row per
    vulnerability, the closing tags. *)
Inductive piece : Type :=
| Preamble (imageName scanTime : string)
| Row (severityClass severity package version fixedIn title description : string)
| Closing.

(** [GenerateHTML] *)
Definition GenerateHTML (r : ScanReport) : list piece :=
  foldl (λ sb vuln,
           let severityClass := ToLower (severity vuln) in
           sb ++ [Row severityClass (severity vuln) (Package vuln) (Version vuln)
                      (FixedIn vuln) (Title vuln) (Description vuln)])
        [Preamble (ImageName r) (ScanTime r)]
        (Vulnerabilities r)
  ++ [Closing].

(** [GenerateTable], before [tabwriter] aligns the columns: the cells
    of each line handed to the writer. *)
Definition GenerateTable (r : ScanReport) : list (list string) :=
  foldl (λ w vuln,
           w ++ [[severity vuln; Package vuln; Version vuln; FixedIn vuln;
                  Title vuln]])
        [ ["SEVERITY"; "PACKAGE"; "VERSION"; "FIXED IN"; "TITLE"];
          ["--------"; "-------"; "-------"; "--------"; "-----"] ]
        (Vulnerabilities r).

End ScannerOutput.

(* ================================================================== *)
(** ** Package scanner: ScanImage *)
(* ================================================================== *)

Module ScanImage.
Import Scanner.
Export Gcp (error, External, Errorf).

(** The commands sent to the machine's [exec] endpoint. *)
Inductive command : Type :=
| StartScan (imageName : string)   (* trivy image ... & echo $! *)
| CheckProcess (pid : Z)           (* ps -p pid ... *)
| KillProcess (pid : Z)            (* kill -9 pid *)
| ReadResults                      (* cat /tmp/trivy-scan.json *)
| RemoveResults.                   (* rm -f /tmp/trivy-scan.json *)

(** How a request that expects a JSON value ends. *)
Inductive reply (A : Type) : Type :=
| NewRequestFailed (err : error)
| DoFailed (err : error)
| DecodeFailed (err : error)
| Decoded (a : A).
Arguments NewRequestFailed {A}.
Arguments DoFailed {A}.
Arguments DecodeFailed {A}.
Arguments Decoded {A}.

(** Durations in nanoseconds, as [time.Duration]. *)
Definition Second : Z := 1000000000.
Definition Minute : Z := 60 * Second.

(** The machine and the clock: the answer to the start request, to the
    [n]-th status check, to the read request, and [time.Since(startTime)]
    as read in the [n]-th iteration. *)
Record Machine : Type := mkMachine {
  started : reply Z;
  checked : nat → reply string;
  results : reply (list Vulnerability);
  since   : nat → Z
}.

(** The polling loop between two iterations. *)
Record poll : Type := mkPoll {
  checks   : nat;
  sent     : list command;
  finished : option (option error)   (* [Some None]: left by [break] *)
}.

Definition timeout : Z := 10 * Minute.

(** One iteration of the loop [for { ... }]. *)
Definition iteration (m : Machine) (pid : Z) (p : poll) : poll :=
  match finished p with
  | Some _ => p
  | None =>
      let n := checks p in
      match checked m n with
      | NewRequestFailed err =>
          {| checks := S n; sent := sent p;
             finished := Some (Some (Errorf "failed to check scan status" err)) |}
      | DoFailed err =>
          {| checks := S n; sent := sent p ++ [CheckProcess pid];
             finished := Some (Some (Errorf "failed to check scan status" err)) |}
      | DecodeFailed err =>
          {| checks := S n; sent := sent p ++ [CheckProcess pid];
             finished := Some (Some (Errorf "failed to decode status" err)) |}
      | Decoded status =>
          if String.eqb status "completed" then
            {| checks := S n; sent := sent p ++ [CheckProcess pid];
               finished := Some None |}
          else if bool_decide (since m n > timeout) then
            {| checks := S n;
               sent := sent p ++ [CheckProcess pid; KillProcess pid];
               finished := Some (Some (External "scan timed out after 10m0s")) |}
          else
            {| checks := S n; sent := sent p ++ [CheckProcess pid];
               finished := None |}
      end
  end.

Definition poll_loop (m : Machine) (pid : Z) (sent0 : list command) (fuel : nat)
    : poll :=
  Nat.iter fuel (iteration m pid)
    {| checks := 0; sent := sent0; finished := None |}.

(** [ScanImage(machineID, imageName)]: the commands sent and the value
    returned; [None] when the loop has not ended within [fuel]
    iterations.  [now] is the formatted [time.Now()] of the report; the
    progress dots are left out. *)
Definition ScanImage (m : Machine) (now imageName : string) (fuel : nat)
    : list command * option (ScanReport + error) :=
  match started m with
  | NewRequestFailed err =>
      ([], Some (inr (Errorf "failed to create scan request" err)))
  | DoFailed err =>
      ([StartScan imageName], Some (inr (Errorf "failed to start Trivy scan" err)))
  | DecodeFailed err =>
      ([StartScan imageName],
       Some (inr (Errorf "failed to get scan process ID" err)))
  | Decoded pid =>
      let p := poll_loop m pid [StartScan imageName] fuel in
      match finished p with
      | None => (sent p, None)
      | Some (Some err) => (sent p, Some (inr err))
      | Some None =>
          match results m with
          | NewRequestFailed err =>
              (sent p, Some (inr (Errorf "failed to read scan results" err)))
          | DoFailed err =>
              (sent p ++ [ReadResults],
               Some (inr (Errorf "failed to read scan results" err)))
          | DecodeFailed err =>
              (sent p ++ [ReadResults],
               Some (inr (Errorf "failed to decode scan results" err)))
          | Decoded vulns =>
              (sent p ++ [ReadResults; RemoveResults],
               Some (inl {| ImageName := imageName;
                            ScanTime := now;
                            Vulnerabilities := vulns |}))
          end
      end
  end.

End ScanImage.

(* ================================================================== *)
(** ** Package gcp: formatSize and StartBuild *)
(* ================================================================== *)

Module GcpMore.
Import GoStrings Gcp.

(** *** formatSize *)

(** The value of an [int64] computation: the result wraps around. *)
Definition int64 (z : Z) : Z := (z + 2 ^ 63) mod 2 ^ 64 - 2 ^ 63.

Definition unit : Z := 1024.

(** The two calls of [fmt.Sprintf] in [formatSize], with their
    arguments: ["%d B"] of the size, and ["%.1f %cB"] of the quotient
    [float64(size)/float64(div)] and the unit letter. *)
Inductive formatted : Type :=
| Bytes (size : Z)
| Scaled (size div : Z) (letter : ascii).

(** How a call ends: with a value, with the run-time panic of an index
    out of range, or not within the iterations allowed. *)
Inductive ending (A : Type) : Type :=
| Returns (a : A)
| Panics
| Unfinished.
Arguments Returns {A}.
Arguments Panics {A}.
Arguments Unfinished {A}.

(** [for n := size / unit; n >= unit; n /= unit { div *= unit; exp++ }]
    from the test of the condition on. *)
Fixpoint unitLoop (fuel : nat) (n div : Z) (exp : nat) : option (Z * nat) :=
  if n >=? unit then
    match fuel with
    | O => None
    | S fuel' => unitLoop fuel' (Z.quot n unit) (int64 (div * unit)) (S exp)
    end
  else Some (div, exp).

(** [formatSize(size)] *)
Definition formatSize (size : Z) : ending formatted :=
  if size <? unit then Returns (Bytes size)
  else
    match unitLoop 64 (Z.quot size unit) unit 0 with
    | None => Unfinished
    | Some (div, exp) =>
        match String.get exp "KMGTPE" with
        | Some letter => Returns (Scaled size div letter)
        | None => Panics
        end
    end.

(** *** StartBuild *)

(** [cloudbuild.Build], as far as [StartBuild] reads it. *)
Record Build : Type := mkBuild {
  Id         : string;
  BuildStatus : string;   (* field [Status] *)
  BuildStartTime : string;  (* field [StartTime] *)
  FinishTime : string;
  LogUrl     : string
}.

(** The [BuildResult] of [StartBuild]: its [ScanResults] stays [nil]. *)
Record StartedBuild : Type := mkStartedBuild {
  ResultID        : string;
  ResultStatus    : string;
  ResultStartTime : string;
  ResultEndTime   : string;
  ResultLogs      : string
}.

Section StartBuild.
(** [time.Parse(time.RFC3339, s)], whose error is dropped. *)
Variable Parse : string → string.
(** [Projects.Builds.Create(...).Do()] and, by request number,
    [Projects.Builds.Get(...).Do()]. *)
Variable create : option error.
Variable get : nat → Build + error.

(** One iteration of the loop of [StartBuild]. *)
Definition buildIteration (p : poller (StartedBuild + error))
    : poller (StartedBuild + error) :=
  match returned p with
  | Some _ => p
  | None =>
      let n := samples p in
      match get n with
      | inr err =>
          {| samples := S n; slept := slept p;
             trace := trace p ++ [Sample n];
             returned :=
               Some (inr (Errorf "failed to get build status" err)) |}
      | inl build =>
          if String.eqb (BuildStatus build) "SUCCESS" then
            {| samples := S n; slept := slept p;
               trace := trace p ++ [Sample n];
               returned :=
                 Some (inl {| ResultID := Id build;
                              ResultStatus := BuildStatus build;
                              ResultStartTime := Parse (BuildStartTime build);
                              ResultEndTime := Parse (FinishTime build);
                              ResultLogs := LogUrl build |}) |}
          else if String.eqb (BuildStatus build) "FAILURE"
                  || String.eqb (BuildStatus build) "TIMEOUT"
                  || String.eqb (BuildStatus build) "CANCELLED" then
            {| samples := S n; slept := slept p;
               trace := trace p ++ [Sample n];
               returned :=
                 Some (inr (External ("build failed with status: "
                                      +:+ BuildStatus build))) |}
          else
            {| samples := S n; slept := slept p + 5;
               trace := trace p ++ [Sample n; Sleep 5];
               returned := None |}
      end
  end.

(** [StartBuild]: the loop after at most [fuel] iterations. *)
Definition StartBuild (fuel : nat) : poller (StartedBuild + error) :=
  match create with
  | Some err =>
      {| samples := 0; slept := 0; trace := [];
         returned := Some (inr (Errorf "failed to start build" err)) |}
  | None =>
      Nat.iter fuel buildIteration
        {| samples := 0; slept := 0; trace := []; returned := None |}
  end.
End StartBuild.

End GcpMore.

(* ================================================================== *)
(** ** Package config and NewClient *)
(* ================================================================== *)

Module Config.
Export Gcp (error, External, Errorf).

Record Config : Type := mkConfig {
  GCPProjectID      : string;
  GCPRegion         : string;
  GCPServiceAccount : string;
  GCPServiceKeyPath : string;
  Severity          : string;
  Timeout           : Z
}.

(** A configuration file as [loadEnvFile] and [loadYamlFile] meet it:
    whether [os.Stat] reports it missing, and how
    [viper.MergeInConfig] ends when it is read. *)
Record ConfigFile : Type := mkConfigFile {
  missing : bool;
  merge   : option error
}.

(** What [LoadConfig] finds: the three files, the home directory, the
    result of [viper.Unmarshal] into an empty [Config], and the value of
    [GOOGLE_APPLICATION_CREDENTIALS]. *)
Record Sources : Type := mkSources {
  envFile        : ConfigFile;
  localYaml      : ConfigFile;
  UserHomeDir    : string + error;
  homeYaml       : string → ConfigFile;
  Unmarshal      : Config + error;
  appCredentials : string
}.

(** [loadEnvFile(filename)] *)
Definition loadEnvFile (f : ConfigFile) : option error :=
  if missing f then None
  else match merge f with
       | Some err => Some (Errorf "failed to read env file" err)
       | None => None
       end.

(** [loadYamlFile(filename)] *)
Definition loadYamlFile (f : ConfigFile) : option error :=
  if missing f then None
  else match merge f with
       | Some err => Some (Errorf "failed to read yaml file" err)
       | None => None
       end.

(** [LoadConfig] *)
Definition LoadConfig (src : Sources) : Config + error :=
  match loadEnvFile (envFile src) with
  | Some err => inr (Errorf "failed to load .docktor.env" err)
  | None =>
  match loadYamlFile (localYaml src) with
  | Some err => inr (Errorf "failed to load .docktor.yaml" err)
  | None =>
  match UserHomeDir src with
  | inr err => inr (Errorf "failed to get home directory" err)
  | inl homeDir =>
  match loadYamlFile (homeYaml src homeDir) with
  | Some err => inr (Errorf "failed to load ~/.docktor.yaml" err)
  | None =>
  match Unmarshal src with
  | inr err => inr (Errorf "failed to unmarshal config" err)
  | inl config =>
      if String.eqb (GCPProjectID config) "" then
        inr (External "gcp_project_id is required")
      else if String.eqb (GCPServiceAccount config) ""
              && String.eqb (GCPServiceKeyPath config) ""
              && String.eqb (appCredentials src) "" then
        inr (External "either gcp_service_account or gcp_service_key_path must be set, or GOOGLE_APPLICATION_CREDENTIALS environment variable must be set")
      else inl config
  end end end end end.

(** [option.ClientOption], as [NewClient] builds it. *)
Inductive ClientOption : Type :=
| WithCredentialsFile (path : string).

(** The client of package gcp, with the options its two services were
    created with. *)
Record Client : Type := mkClient {
  projectID : string;
  options   : list ClientOption
}.

(** The calls of [NewClient]: reading the key file, checking that it is
    JSON, creating the two services. *)
Record Platform : Type := mkPlatform {
  ReadFile     : string → list byte + error;
  validJSON    : list byte → option error;
  NewService   : list ClientOption → option error;   (* cloudbuild.NewService *)
  NewStorage   : list ClientOption → option error    (* storage.NewClient *)
}.

(** [NewClient(projectID, serviceAccount, serviceKeyPath)] *)
Definition NewClient (pf : Platform)
    (projectID serviceAccount serviceKeyPath : string) : Client + error :=
  let services (opts : list ClientOption) : Client + error :=
    match NewService pf opts with
    | Some err => inr (Errorf "failed to create Cloud Build service" err)
    | None =>
        match NewStorage pf opts with
        | Some err => inr (Errorf "failed to create Cloud Storage client" err)
        | None => inl {| projectID := projectID; options := opts |}
        end
    end in
  if negb (String.eqb serviceAccount "") && negb (String.eqb serviceKeyPath "")
  then
    match ReadFile pf serviceKeyPath with
    | inr err => inr (Errorf "failed to read service account key file" err)
    | inl keyFile =>
        match validJSON pf keyFile with
        | Some err => inr (Errorf "invalid service account key file" err)
        | None => services [WithCredentialsFile serviceKeyPath]
        end
    end
  else services [].

End Config.

(* ================================================================== *)
(** ** Package cmd: loadConfig, init and lint *)
(* ================================================================== *)

Module CmdMore.
Import GoStrings.
Export Gcp (error, External, Errorf).

(** [strings.TrimPrefix(s, prefix)] *)
Definition TrimPrefix (s prefix : string) : string :=
  if HasPrefix s prefix
  then String.substring (String.length prefix)
                        (String.length s - String.length prefix) s
  else s.

(** *** loadConfig (root.go) *)

(** The [Fly] part of the configuration. *)
Record FlyConfig : Type := mkFlyConfig {
  APIToken     : string;
  Organization : string;
  Region       : string;
  CPUKind      : string;
  CPUs         : Z;
  MemoryMB     : Z
}.

(** What [loadConfig] reads: the [--config] flag, the home directory,
    the two environment variables, the lines of [.docktor.env] ([None]
    when [os.Stat] fails, an error when [os.Open] fails), and the effect
    of [viper.Unmarshal] on the configuration when a YAML file is read
    ([None] when [viper.ReadInConfig] fails). *)
Record Inputs : Type := mkInputs {
  cfgFile     : string;
  homeDir     : string + error;
  FLY_API_TOKEN : string;
  FLY_ORG_ID  : string;
  dotEnv      : option (list string + error);
  yaml        : option (FlyConfig → FlyConfig)
}.

Definition setAPIToken (c : FlyConfig) (v : string) : FlyConfig :=
  {| APIToken := v; Organization := Organization c; Region := Region c;
     CPUKind := CPUKind c; CPUs := CPUs c; MemoryMB := MemoryMB c |}.

Definition setOrganization (c : FlyConfig) (v : string) : FlyConfig :=
  {| APIToken := APIToken c; Organization := v; Region := Region c;
     CPUKind := CPUKind c; CPUs := CPUs c; MemoryMB := MemoryMB c |}.

Definition setRegion (c : FlyConfig) (v : string) : FlyConfig :=
  {| APIToken := APIToken c; Organization := Organization c; Region := v;
     CPUKind := CPUKind c; CPUs := CPUs c; MemoryMB := MemoryMB c |}.

(** The body of [for scanner.Scan() { ... }] for one line. *)
Definition scanLine (config : FlyConfig) (line : string) : FlyConfig :=
  let config :=
    if HasPrefix line "FLY_API_TOKEN="
    then setAPIToken config (TrimPrefix line "FLY_API_TOKEN=")
    else config in
  if HasPrefix line "FLY_ORG_ID="
  then setOrganization config (TrimPrefix line "FLY_ORG_ID=")
  else config.

(** [loadConfig]; the progress messages it prints are left out. *)
Definition loadConfig (i : Inputs) : FlyConfig + error :=
  let config := {| APIToken := ""; Organization := ""; Region := "";
                   CPUKind := ""; CPUs := 0; MemoryMB := 0 |} in
  match (if String.eqb (cfgFile i) "" then homeDir i else inl "") with
  | inr err => inr (Errorf "failed to get home directory" err)
  | inl _ =>
      let config :=
        if negb (String.eqb (FLY_API_TOKEN i) "")
        then setAPIToken config (FLY_API_TOKEN i) else config in
      let config :=
        if negb (String.eqb (FLY_ORG_ID i) "")
        then setOrganization config (FLY_ORG_ID i) else config in
      match dotEnv i with
      | Some (inr err) => inr (Errorf "failed to open .docktor.env" err)
      | opened =>
          let config :=
            match opened with
            | Some (inl lines) => foldl scanLine config lines
            | _ => config
            end in
          let config :=
            match yaml i with
            | Some unmarshal => unmarshal config
            | None => config
            end in
          let config :=
            if String.eqb (Region config) "" then setRegion config "iad"
            else config in
          if String.eqb (APIToken config) "" then
            inr (External "FLY_API_TOKEN is required. Set it in .docktor.env or as an environment variable")
          else if String.eqb (Organization config) "" then
            inr (External "FLY_ORG_ID is required. Set it in .docktor.env or as an environment variable")
          else inl config
      end
  end.

(** *** lintCmd *)

Record Issue : Type := mkIssue {
  Line    : Z;
  Message : string;
  Level   : string;
  Code    : string
}.

(** An argument of [fmt.Printf]. *)
Inductive arg : Type :=
| Str (s : string)
| Int (n : Z).

Inductive output : Type :=
| Println (line : string)
| Printf (format : string) (args : list arg).

(** The calls of the lint command, with their results;
    [LintDockerfile] returns the issues found. *)
Record LintCalls : Type := mkLintCalls {
  LoadConfig     : option error;
  NewClient      : option error;
  Abs            : string + error;
  LintDockerfile : string → list Issue + error
}.

(** The three lines printed for an issue. *)
Definition printIssue (issue : Issue) : list output :=
  [Printf "Line %d: %s\n" [Int (Line issue); Str (Message issue)];
   Printf "Level: %s\n" [Str (Level issue)];
   Printf "Code: %s\n\n" [Str (Code issue)]].

(** [RunE] of [lintCmd] *)
Definition lintCmd (c : LintCalls) : list output * option error :=
  match LoadConfig c with
  | Some err => ([], Some (Errorf "failed to load config" err))
  | None =>
  match NewClient c with
  | Some err => ([], Some (Errorf "failed to create GCP client" err))
  | None =>
  match Abs c with
  | inr err => ([], Some (Errorf "failed to get absolute path for context" err))
  | inl absContext =>
  match LintDockerfile c absContext with
  | inr err => ([], Some (Errorf "failed to lint Dockerfile" err))
  | inl issues =>
      if bool_decide (length issues = 0%nat) then
        ([Println "✅ No issues found in your Dockerfile!"], None)
      else
        (foldl (λ out issue, out ++ printIssue issue)
               [Printf "\n🔍 Found %d issues in your Dockerfile:\n\n"
                       [Int (Z.of_nat (length issues))]]
               issues,
         None)
  end end end end.

(** *** initCmd *)

Definition newline : string := String (Ascii.ascii_of_nat 10) EmptyString.

(** The values of the variables after each [fmt.Scanln], in the order
    of the prompts (empty when nothing was read), and the file system as
    [initCmd] sees it. *)
Record Answers : Type := mkAnswers {
  gcpProjectID      : string;
  gcpRegion         : string;
  useServiceAccount : string;
  gcpServiceAccount : string;
  gcpServiceKeyPath : string
}.

Record InitOS : Type := mkInitOS {
  envExists  : bool;             (* os.Stat(".docktor.env") succeeds *)
  keyMissing : string → bool;    (* os.IsNotExist of os.Stat(path) *)
  writeFault : option error      (* os.WriteFile *)
}.

(** The content of the file, from the validated answers. *)
Definition envContent (projectID region serviceAccount keyPath : string)
    : string :=
  let base := "GCP_PROJECT_ID=" +:+ projectID +:+ newline
              +:+ "GCP_REGION=" +:+ region +:+ newline in
  if negb (String.eqb serviceAccount "") && negb (String.eqb keyPath "")
  then base +:+ "GCP_SERVICE_ACCOUNT=" +:+ serviceAccount +:+ newline
            +:+ "GCP_SERVICE_KEY_PATH=" +:+ keyPath +:+ newline
  else base.

(** [RunE] of [initCmd]: the content written to [.docktor.env], if any,
    and the error returned; the prompts and messages are left out. *)
Definition initCmd (os : InitOS) (a : Answers) : option string * option error :=
  if envExists os then (None, Some (External ".docktor.env already exists"))
  else if String.eqb (gcpProjectID a) "" then
    (None, Some (External "Google Cloud project ID is required"))
  else
    let region := if String.eqb (gcpRegion a) "" then "global" else gcpRegion a in
    let write (serviceAccount keyPath : string) :=
      match writeFault os with
      | Some err => (None, Some (Errorf "failed to write .docktor.env" err))
      | None =>
          (Some (envContent (gcpProjectID a) region serviceAccount keyPath), None)
      end in
    if String.eqb (useServiceAccount a) "y" || String.eqb (useServiceAccount a) "Y"
    then
      if String.eqb (gcpServiceAccount a) "" then
        (None, Some (External "service account email is required"))
      else if String.eqb (gcpServiceKeyPath a) "" then
        (None, Some (External "service account key file path is required"))
      else if keyMissing os (gcpServiceKeyPath a) then
        (None, Some (External ("service account key file not found at: "
                               +:+ gcpServiceKeyPath a)))
      else write (gcpServiceAccount a) (gcpServiceKeyPath a)
    else write "" "".

End CmdMore.

(* ================================================================== *)
(** ** Properties of package scanner *)
(* ================================================================== *)

Module ScannerFacts.
Import Scanner.

(** The loop computes a filter: the accumulator only grows at its end. *)
Lemma keep_loop (lvl : Z) (vs acc : list Vulnerability) :
  foldl (keep lvl) acc vs
  = acc ++ filter (λ v, level (severity v) >= lvl) vs.
Proof.
  revert acc. induction vs as [|v vs IH]; intros acc; simpl.
  - by rewrite app_nil_r.
  - rewrite IH. unfold keep. rewrite filter_cons.
    destruct (decide (level (severity v) >= lvl)) as [Hge|Hlt].
    + rewrite bool_decide_eq_true_2 by done. by rewrite <- app_assoc.
    + rewrite bool_decide_eq_false_2 by done. done.
Qed.

Lemma FilterBySeverity_filter (r : ScanReport) (minSeverity : Severity) :
  Vulnerabilities (FilterBySeverity r minSeverity)
  = filter (λ v, level (severity v) >= level minSeverity) (Vulnerabilities r).
Proof. unfold FilterBySeverity; simpl. by rewrite keep_loop. Qed.

Lemma level_named :
  level SeverityCritical = 4 ∧ level SeverityHigh = 3 ∧
  level SeverityMedium = 2 ∧ level SeverityLow = 1 ∧
  level SeverityUnknown = 0.
Proof. repeat split; vm_compute; reflexivity. Qed.

Lemma level_unnamed (s : Severity) : unnamed s → level s = 0.
Proof.
  intros (H1 & H2 & H3 & H4 & H5). unfold level, index, severityOrder.
  rewrite !lookup_insert_ne by done. by rewrite lookup_empty.
Qed.

Lemma level_nonneg (s : Severity) : 0 <= level s.
Proof.
  unfold level, index, severityOrder.
  repeat (rewrite lookup_insert; case_decide; [simpl; lia|]).
  by rewrite lookup_empty.
Qed.

(** C1. For every report and every minimum severity, the list kept by
    [FilterBySeverity] is a subsequence of the input list (same relative
    order), every kept vulnerability has a level at least that of the
    threshold, and the levels are CRITICAL 4, HIGH 3, MEDIUM 2, LOW 1,
    UNKNOWN 0. *)
Theorem FilterBySeverity_subsequence (r : ScanReport) (minSeverity : Severity) :
  sublist (Vulnerabilities (FilterBySeverity r minSeverity)) (Vulnerabilities r)
  ∧ Forall (λ v, level (severity v) >= level minSeverity)
           (Vulnerabilities (FilterBySeverity r minSeverity))
  ∧ (level SeverityCritical = 4 ∧ level SeverityHigh = 3 ∧
     level SeverityMedium = 2 ∧ level SeverityLow = 1 ∧
     level SeverityUnknown = 0).
Proof.
  rewrite FilterBySeverity_filter. split; [|split].
  - apply sublist_filter.
  - apply Forall_forall. intros v Hv.
    by apply list_elem_of_filter in Hv as [Hv _].
  - apply level_named.
Qed.

(** Every level is at least that of a threshold of level 0. *)
Lemma filter_level_zero (vs : list Vulnerability) :
  filter (λ v, level (severity v) >= 0) vs = vs.
Proof.
  induction vs as [|v vs IH]; [done|].
  rewrite filter_cons_True; [by rewrite IH|].
  pose proof (level_nonneg (severity v)). lia.
Qed.

(** C10. A severity string that is none of the five constants has level
    0, the default of the map; with such a string as [minSeverity] the
    report comes back unchanged; and a vulnerability of the report with
    such a severity is kept exactly when the level of the threshold
    is 0. *)
Theorem FilterBySeverity_unnamed
    (r : ScanReport) (minSeverity s : Severity) (v : Vulnerability) :
  (unnamed s → level s = 0)
  ∧ (unnamed minSeverity → FilterBySeverity r minSeverity = r)
  ∧ (unnamed (severity v) → v ∈ Vulnerabilities r →
     (v ∈ Vulnerabilities (FilterBySeverity r minSeverity)
      ↔ level minSeverity = 0)).
Proof.
  split; [apply level_unnamed|split].
  - intros Hmin. destruct r as [img tm vs].
    unfold FilterBySeverity; simpl. f_equal.
    rewrite keep_loop, (level_unnamed _ Hmin). apply filter_level_zero.
  - intros Hv Hin. rewrite FilterBySeverity_filter, list_elem_of_filter.
    rewrite (level_unnamed _ Hv).
    pose proof (level_nonneg minSeverity). split.
    + intros [Hge _]. lia.
    + intros Hz. split; [lia|done].
Qed.

Definition bogus : Vulnerability :=
  {| ID := "CVE-0"; Title := "t"; Description := "d"; severity := "NEGLIGIBLE";
     Package := "p"; Version := "1"; FixedIn := ""; URL := "" |}.

Lemma FilterBySeverity_unnamed_witness :
  level "NEGLIGIBLE" = 0
  ∧ FilterBySeverity (mkScanReport "img" "now" [bogus]) "negligible"
    = mkScanReport "img" "now" [bogus]
  ∧ (bogus ∈ Vulnerabilities
       (FilterBySeverity (mkScanReport "img" "now" [bogus]) "UNKNOWN")
     ↔ level "UNKNOWN" = 0).
Proof.
  pose proof (FilterBySeverity_unnamed (mkScanReport "img" "now" [bogus])
                "negligible" "NEGLIGIBLE" bogus) as (H1 & H2 & _).
  pose proof (FilterBySeverity_unnamed (mkScanReport "img" "now" [bogus])
                "UNKNOWN" "NEGLIGIBLE" bogus) as (_ & _ & H3).
  split; [|split].
  - apply H1. repeat split; discriminate.
  - apply H2. repeat split; discriminate.
  - apply H3.
    + repeat split; discriminate.
    + simpl. apply list_elem_of_here.
Defined.

End ScannerFacts.

(* ================================================================== *)
(** ** Properties of getScanResults *)
(* ================================================================== *)

Module RetrieveFacts.
Import GoStrings Gcp.

(** The error of a missing artifact and the error of an unreadable one,
    as [getScanResults] builds them. *)
Definition NotFoundError (err : error) : Prop :=
  ∃ cause, err = Errorf "scan results file not found" cause.

Definition FormatError (err : error) : Prop :=
  ∃ cause, err = Errorf "failed to parse scan results" cause.

Definition artifact (bucketName buildID : string) : string * string :=
  (bucketName, buildID +:+ "/scan-results.json").

Definition rawJSONPath (buildID : string) : string :=
  Join "docktor" (buildID +:+ "-raw.json").

Definition htmlPath (buildID : string) : string :=
  Join "docktor" (buildID +:+ "-report.html").

(** No call of the transport or of the operating system fails before
    the artifact is parsed. *)
Definition healthy (st : Storage) (os : LocalOS) : Prop :=
  attrsFault st = None ∧ readerFault st = None ∧ readFault st = None ∧
  mkdirFault os = None ∧ writeFault os = None.

Lemma copyVulnerability_id (vuln : Vulnerability) : copyVulnerability vuln = vuln.
Proof. by destruct vuln. Qed.

Lemma append_group (vulns acc : list Vulnerability) :
  foldl (λ acc vuln, acc ++ [copyVulnerability vuln]) acc vulns = acc ++ vulns.
Proof.
  revert acc. induction vulns as [|v vulns IH]; intros acc; simpl.
  - by rewrite app_nil_r.
  - rewrite IH, copyVulnerability_id, <- app_assoc. done.
Qed.

Lemma append_groups (groups : list trivyResult) (acc : list Vulnerability) :
  foldl (λ acc result,
           foldl (λ acc vuln, acc ++ [copyVulnerability vuln])
                 acc (ResultVulnerabilities result))
        acc groups
  = acc ++ concat (ResultVulnerabilities <$> groups).
Proof.
  revert acc. induction groups as [|g groups IH]; intros acc; simpl.
  - by rewrite app_nil_r.
  - rewrite IH, append_group, <- app_assoc. done.
Qed.

Lemma convertResults_concat (results : trivyOutput) :
  Vulnerabilities (convertResults results)
  = concat (ResultVulnerabilities <$> Results results).
Proof. unfold convertResults; simpl. by rewrite append_groups. Qed.

Lemma append_suffix_differs (b : string) :
  b +:+ "-raw.json" ≠ b +:+ "-report.html".
Proof. induction b as [|c b IH]; simpl; [discriminate|]. intros [=]. done. Qed.

(** The raw file and the report are two files. *)
Lemma raw_html_differ (buildID : string) : htmlPath buildID ≠ rawJSONPath buildID.
Proof.
  unfold htmlPath, rawJSONPath, Join. simpl. intros [=H].
  by apply (append_suffix_differs buildID).
Qed.

Section Run.
Variable Unmarshal : list byte → trivyOutput + error.
Variable generated : string.
Variables (st : Storage) (os : LocalOS).
Variables (bucketName buildID : string).
Variable disk : gmap string file.

Abbreviation retrieve :=
  (getScanResults Unmarshal generated st os bucketName buildID disk).

(** A missing object stops the function at its first check. *)
Lemma retrieve_missing :
  objects st !! artifact bucketName buildID = None →
  ∃ cause, retrieve = (inr (Errorf "scan results file not found" cause), disk).
Proof.
  intros Hnone. unfold getScanResults, mbind, M_bind, bind, check, Attrs.
  fold (artifact bucketName buildID). rewrite Hnone.
  destruct (attrsFault st) as [e|]; eauto.
Qed.

(** With the object present and no failing call, the function gets as
    far as parsing, and the raw file is on disk from there on. *)
Lemma retrieve_healthy (content : list byte) :
  objects st !! artifact bucketName buildID = Some content →
  healthy st os →
  retrieve =
    let disk1 := <[rawJSONPath buildID := RawFile content]> disk in
    match Unmarshal content with
    | inr err => (inr (Errorf "failed to parse scan results" err), disk1)
    | inl results =>
        match createFault os with
        | Some err => (inr (Errorf "failed to create HTML report" err), disk1)
        | None =>
            (inl (convertResults results),
             <[htmlPath buildID :=
                 HtmlFile (writeReport buildID generated
                             (Vulnerabilities (convertResults results)))]> disk1)
        end
    end.
Proof.
  intros Hobj (Ha & Hr & Hd & Hm & Hw).
  unfold getScanResults, mbind, M_bind, mret, M_ret, bind, ret, check, try,
    Attrs, NewReader, ReadAll, MkdirAll, WriteFile, Create, Fprintf.
  fold (artifact bucketName buildID) (rawJSONPath buildID) (htmlPath buildID).
  rewrite Ha, Hr, Hd, Hm, Hw, Hobj. simpl.
  destruct (Unmarshal content) as [results|err]; [|done].
  destruct (createFault os) as [err|]; [done|].
  rewrite lookup_insert_eq, insert_insert_eq. done.
Qed.
(** C2. Parsing flattens the result groups of the artifact into one
    list: the findings of the first group in their order, then those of
    the second, and so on; the groups [[A; B]] and [[C]] give
    [[A; B; C]].  This list is what [getScanResults] returns for an
    artifact that decodes, when no call fails. *)
Theorem parsing_flattens_groups
    (content : list byte) (results : trivyOutput) (A B C : Vulnerability) :
  Vulnerabilities (convertResults results)
  = concat (ResultVulnerabilities <$> Results results)
  ∧ Vulnerabilities
      (convertResults
         {| Results := [ {| ResultVulnerabilities := [A; B] |};
                         {| ResultVulnerabilities := [C] |} ] |})
    = [A; B; C]
  ∧ (objects st !! artifact bucketName buildID = Some content →
     healthy st os → createFault os = None →
     Unmarshal content = inl results →
     retrieve.1
     = inl {| Vulnerabilities :=
                concat (ResultVulnerabilities <$> Results results) |}).
Proof.
  split; [apply convertResults_concat|split].
  - by rewrite convertResults_concat.
  - intros Hobj Hok Hcreate Hdec.
    rewrite (retrieve_healthy content Hobj Hok). simpl.
    rewrite Hdec, Hcreate. simpl. f_equal.
    rewrite <- convertResults_concat. by destruct (convertResults results).
Qed.

(** Unfold the function and split on every call that can fail. *)
Ltac split_calls :=
  unfold getScanResults, mbind, M_bind, mret, M_ret, bind, ret, check, try,
    Attrs, NewReader, ReadAll, MkdirAll, WriteFile, Create, Fprintf;
  fold (artifact bucketName buildID) (rawJSONPath buildID) (htmlPath buildID);
  repeat match goal with
         | |- context [match ?x with _ => _ end] =>
             lazymatch x with
             | attrsFault _ => destruct x eqn:?
             | readerFault _ => destruct x eqn:?
             | readFault _ => destruct x eqn:?
             | mkdirFault _ => destruct x eqn:?
             | writeFault _ => destruct x eqn:?
             | createFault _ => destruct x eqn:?
             | objects _ !! _ => destruct x eqn:?
             | Unmarshal _ => destruct x eqn:?
             end; simpl
         end.

(** A parse error comes out only after the object was read and its
    bytes were written to the raw file. *)
Lemma retrieve_format_error (err : error) :
  retrieve.1 = inr err → FormatError err →
  ∃ content cause,
    objects st !! artifact bucketName buildID = Some content
    ∧ Unmarshal content = inr cause
    ∧ retrieve = (inr (Errorf "failed to parse scan results" cause),
                  <[rawJSONPath buildID := RawFile content]> disk).
Proof.
  intros Hres [cause Hfmt]. subst err. revert Hres.
  split_calls; intros Hres; simplify_eq; try discriminate.
  - rewrite lookup_insert_eq in Hres. simpl in Hres. discriminate.
  - eauto 6.
Qed.

(** C5. When the artifact object does not exist the function fails with
    the not-found error, which is not the parse error; when the object
    exists, no call fails and its bytes do not parse, the function fails
    with the parse error, which is not the not-found error. *)
Theorem retrieve_not_found_or_format :
  (objects st !! artifact bucketName buildID = None →
   ∃ err, retrieve.1 = inr err ∧ NotFoundError err ∧ ¬ FormatError err)
  ∧ (∀ content cause,
       objects st !! artifact bucketName buildID = Some content →
       healthy st os →
       Unmarshal content = inr cause →
       ∃ err, retrieve.1 = inr err ∧ FormatError err ∧ ¬ NotFoundError err).
Proof.
  split.
  - intros Hnone. destruct (retrieve_missing Hnone) as [cause Hrun].
    exists (Errorf "scan results file not found" cause).
    rewrite Hrun. split; [done|]. split; [by exists cause|].
    intros [c Hc]. discriminate.
  - intros content cause Hobj Hok Hbad.
    exists (Errorf "failed to parse scan results" cause).
    rewrite (retrieve_healthy content Hobj Hok). simpl. rewrite Hbad.
    split; [done|]. split; [by exists cause|].
    intros [c Hc]. discriminate.
Qed.

(** C6. The bytes of the artifact are written to the raw file as they
    were read, before they are parsed: a run that ends in the parse error
    leaves the raw file on disk with exactly the bytes of the object; so
    does every run in which no call before parsing fails; and when the
    write of the raw file fails, no parse error is reported. *)
Theorem raw_bytes_written_before_parsing :
  (∀ err, retrieve.1 = inr err → FormatError err →
     ∃ content,
       objects st !! artifact bucketName buildID = Some content
       ∧ retrieve.2 !! rawJSONPath buildID = Some (RawFile content))
  ∧ (∀ content,
       objects st !! artifact bucketName buildID = Some content →
       healthy st os →
       retrieve.2 !! rawJSONPath buildID = Some (RawFile content))
  ∧ (∀ cause err,
       writeFault os = Some cause →
       retrieve.1 = inr err → ¬ FormatError err).
Proof.
  split; [|split].
  - intros err Hres Hfmt.
    destruct (retrieve_format_error err Hres Hfmt) as (content & c & Hobj & _ & Hrun).
    exists content. split; [done|]. rewrite Hrun. simpl. apply lookup_insert_eq.
  - intros content Hobj Hok. rewrite (retrieve_healthy content Hobj Hok). simpl.
    destruct (Unmarshal content) as [results|e]; simpl.
    + destruct (createFault os); simpl.
      * apply lookup_insert_eq.
      * rewrite lookup_insert_ne by apply raw_html_differ. apply lookup_insert_eq.
    + apply lookup_insert_eq.
  - intros cause err Hw Hres Hfmt.
    destruct (retrieve_format_error err Hres Hfmt) as (content & c & Hobj & Hbad & Hrun).
    revert Hrun. split_calls; intros Hrun; simplify_eq.
Qed.
End Run.

(** A store without the artifact, and one that holds an artifact. *)
Definition emptyStore : Storage :=
  {| objects := ∅; attrsFault := None; readerFault := None;
     readFault := None; deleteFault := None |}.

Definition garbage : list byte := [x7b; x6f; x6f; x70; x73].

Definition garbageStore : Storage :=
  {| objects := {[ artifact "p-docktor-builds" "docktor-1" := garbage ]};
     attrsFault := None; readerFault := None;
     readFault := None; deleteFault := None |}.

Definition goodOS : LocalOS :=
  {| mkdirFault := None; writeFault := None; createFault := None |}.

Definition brokenDisk : LocalOS :=
  {| mkdirFault := None; writeFault := Some (External "no space left on device");
     createFault := None |}.

Definition rejectAll (content : list byte) : trivyOutput + error :=
  inr (External "invalid character 'o' looking for beginning of object key string").

(** An artifact of two result groups. *)
Definition vulnA : Vulnerability :=
  mkVulnerability "CVE-1" "openssl" "1.0" "1.1" "HIGH" "a" "da".
Definition vulnB : Vulnerability :=
  mkVulnerability "CVE-2" "zlib" "1.2" "" "LOW" "b" "db".
Definition vulnC : Vulnerability :=
  mkVulnerability "CVE-3" "bash" "5.0" "5.1" "CRITICAL" "c" "dc".

Definition twoTargets : trivyOutput :=
  {| Results := [ {| ResultVulnerabilities := [vulnA; vulnB] |};
                  {| ResultVulnerabilities := [vulnC] |} ] |}.

Definition decodeTwoTargets (content : list byte) : trivyOutput + error :=
  inl twoTargets.

Lemma parsing_flattens_groups_witness :
  (getScanResults decodeTwoTargets "now" garbageStore goodOS
     "p-docktor-builds" "docktor-1" ∅).1
  = inl {| Vulnerabilities := [vulnA; vulnB; vulnC] |}.
Proof.
  apply (proj2 (proj2 (parsing_flattens_groups decodeTwoTargets "now" garbageStore
                         goodOS "p-docktor-builds" "docktor-1" ∅
                         garbage twoTargets vulnA vulnB vulnC))).
  - vm_compute. reflexivity.
  - repeat split.
  - reflexivity.
  - reflexivity.
Defined.

Lemma retrieve_not_found_or_format_witness :
  (∃ err, (getScanResults rejectAll "now" emptyStore goodOS
             "p-docktor-builds" "docktor-1" ∅).1 = inr err
          ∧ NotFoundError err ∧ ¬ FormatError err)
  ∧ (∃ err, (getScanResults rejectAll "now" garbageStore goodOS
               "p-docktor-builds" "docktor-1" ∅).1 = inr err
            ∧ FormatError err ∧ ¬ NotFoundError err).
Proof.
  split.
  - apply (retrieve_not_found_or_format rejectAll "now" emptyStore goodOS
             "p-docktor-builds" "docktor-1" ∅).
    reflexivity.
  - apply (proj2 (retrieve_not_found_or_format rejectAll "now" garbageStore goodOS
                    "p-docktor-builds" "docktor-1" ∅) garbage
             (External "invalid character 'o' looking for beginning of object key string")).
    + vm_compute. reflexivity.
    + repeat split.
    + reflexivity.
Defined.

Lemma raw_bytes_written_before_parsing_witness :
  (∃ content,
     objects garbageStore !! artifact "p-docktor-builds" "docktor-1" = Some content
     ∧ (getScanResults rejectAll "now" garbageStore goodOS
          "p-docktor-builds" "docktor-1" ∅).2 !! rawJSONPath "docktor-1"
       = Some (RawFile content))
  ∧ (getScanResults rejectAll "now" garbageStore goodOS
       "p-docktor-builds" "docktor-1" ∅).2 !! rawJSONPath "docktor-1"
    = Some (RawFile garbage)
  ∧ ¬ FormatError (Errorf "failed to save raw JSON file"
                          (External "no space left on device")).
Proof.
  pose proof (raw_bytes_written_before_parsing rejectAll "now" garbageStore goodOS
                "p-docktor-builds" "docktor-1" ∅) as (H1 & H2 & _).
  pose proof (raw_bytes_written_before_parsing rejectAll "now" garbageStore brokenDisk
                "p-docktor-builds" "docktor-1" ∅) as (_ & _ & H3).
  split; [|split].
  - apply (H1 (Errorf "failed to parse scan results"
                 (External "invalid character 'o' looking for beginning of object key string"))).
    + vm_compute. reflexivity.
    + eexists. reflexivity.
  - apply H2.
    + vm_compute. reflexivity.
    + repeat split.
  - apply (H3 (External "no space left on device")).
    + reflexivity.
    + vm_compute. reflexivity.
Defined.

End RetrieveFacts.

(* ================================================================== *)
(** ** Properties of the HTML report *)
(* ================================================================== *)

Module ReportFacts.
Import GoStrings Gcp.

(** The vulnerabilities of a report that carry the severity [s], in
    report order. *)
Definition withSeverity (s : string) (vulns : list Vulnerability)
    : list Vulnerability :=
  filter (λ v, Severity v = s) vulns.

(** The summary cards and the detail section, stated over the report
    instead of the grouping map. *)
Definition cards (vulns : list Vulnerability) : list htmlWrite :=
  flat_map (λ s, match withSeverity s vulns with
                 | [] => []
                 | l => [SeverityCard (ToLower s) s (length l)]
                 end)
           severityOrder.

Definition details (vulns : list Vulnerability) : list htmlWrite :=
  flat_map (λ s, flat_map (writeVulnerability s) (withSeverity s vulns))
           severityOrder.

(** The grouping map holds, under each severity that occurs, the
    vulnerabilities of that severity in report order. *)
Lemma groupBySeverity_snoc (vulns : list Vulnerability) (v : Vulnerability) :
  groupBySeverity (vulns ++ [v])
  = <[Severity v := index [] (groupBySeverity vulns) (Severity v) ++ [v]]>
      (groupBySeverity vulns).
Proof. unfold groupBySeverity. by rewrite foldl_app. Qed.

Lemma groupBySeverity_lookup (vulns : list Vulnerability) (s : string) :
  groupBySeverity vulns !! s
  = match withSeverity s vulns with
    | [] => None
    | l => Some l
    end.
Proof.
  induction vulns as [|v vulns IH] using rev_ind; [done|].
  rewrite groupBySeverity_snoc. unfold withSeverity in *.
  rewrite filter_app, filter_cons, filter_nil.
  destruct (decide (Severity v = s)) as [->|Hne].
  - rewrite lookup_insert_eq. unfold index. rewrite IH.
    destruct (filter _ vulns); done.
  - rewrite lookup_insert_ne by done. by rewrite app_nil_r.
Qed.

(** The two loops over [severityOrder], started from any output. *)
Lemma summary_loop (m : gmap string (list Vulnerability))
    (ss : list string) (out : list htmlWrite) :
  foldl (λ out severity,
           match m !! severity with
           | Some vulns =>
               out ++ [SeverityCard (ToLower severity) severity (length vulns)]
           | None => out
           end) out ss
  = out ++ flat_map (λ s, match m !! s with
                          | Some l => [SeverityCard (ToLower s) s (length l)]
                          | None => []
                          end) ss.
Proof.
  revert out. induction ss as [|s ss IH]; intros out; simpl.
  - by rewrite app_nil_r.
  - rewrite IH. destruct (m !! s); simpl.
    + by rewrite <- app_assoc.
    + done.
Qed.

Lemma vulnerability_loop (s : string) (vulns : list Vulnerability)
    (out : list htmlWrite) :
  foldl (λ out vuln, out ++ writeVulnerability s vuln) out vulns
  = out ++ flat_map (writeVulnerability s) vulns.
Proof.
  revert out. induction vulns as [|v vulns IH]; intros out; simpl.
  - by rewrite app_nil_r.
  - rewrite IH. by rewrite <- app_assoc.
Qed.

Lemma details_loop (m : gmap string (list Vulnerability))
    (ss : list string) (out : list htmlWrite) :
  foldl (λ out severity,
           match m !! severity with
           | Some vulns =>
               foldl (λ out vuln, out ++ writeVulnerability severity vuln)
                     out vulns
           | None => out
           end) out ss
  = out ++ flat_map (λ s, match m !! s with
                          | Some l => flat_map (writeVulnerability s) l
                          | None => []
                          end) ss.
Proof.
  revert out. induction ss as [|s ss IH]; intros out; simpl.
  - by rewrite app_nil_r.
  - rewrite IH. destruct (m !! s); simpl.
    + by rewrite vulnerability_loop, <- app_assoc.
    + done.
Qed.

Lemma writeSummary_cards (vulns : list Vulnerability) :
  writeSummary (groupBySeverity vulns) = cards vulns.
Proof.
  unfold writeSummary, cards. rewrite summary_loop. simpl.
  rewrite !groupBySeverity_lookup.
  repeat match goal with
         | |- context [withSeverity ?s vulns] => destruct (withSeverity s vulns)
         end; done.
Qed.

Lemma writeDetails_details (vulns : list Vulnerability) :
  writeDetails (groupBySeverity vulns) = details vulns.
Proof.
  unfold writeDetails, details. rewrite details_loop. simpl.
  rewrite !groupBySeverity_lookup.
  repeat match goal with
         | |- context [withSeverity ?s vulns] => destruct (withSeverity s vulns)
         end; done.
Qed.

(** Dropping the vulnerabilities whose severity is not displayed leaves
    those of each displayed severity as they were. *)
Lemma withSeverity_displayed (s : string) (vulns : list Vulnerability) :
  s ∈ severityOrder →
  withSeverity s (filter (λ v, Severity v ∈ severityOrder) vulns)
  = withSeverity s vulns.
Proof.
  intros Hs. unfold withSeverity. rewrite list_filter_filter.
  apply list_filter_iff. intros v. split; [by intros [-> _]|].
  intros ->. done.
Qed.

Lemma fixed_version_line (s f : string) (v : Vulnerability) :
  FixedVersionLine f ∈ writeVulnerability s v
  ↔ f = FixedVersion v ∧ FixedVersion v ≠ "".
Proof.
  unfold writeVulnerability.
  destruct (String.eqb_spec (FixedVersion v) "") as [Heq|Hne]; simpl.
  - rewrite !elem_of_cons, elem_of_nil. split.
    + intros [H|[H|[]]]; discriminate.
    + intros [_ H]. done.
  - rewrite !elem_of_cons, elem_of_nil. split.
    + intros [H|[H|[H|[]]]]; try discriminate. by injection H as ->.
    + intros [-> _]. right; left. done.
Qed.

Definition unknownVuln : Vulnerability :=
  {| VulnerabilityID := "CVE-2024-0001"; PkgName := "zlib";
     InstalledVersion := "1.2.11"; FixedVersion := ""; Severity := "UNKNOWN";
     Title := "zlib: heap overflow"; Description := "d" |}.

(** The report of a single UNKNOWN finding has an empty detail section:
    no write mentions the finding. *)
Lemma unknown_absent_from_details :
  writeReport "docktor-1" "now" [unknownVuln]
  = [Header "docktor-1" "now"; SummaryEnd; Footer]
  ∧ ¬ (∃ class,
         VulnOpen class (Title unknownVuln) (PkgName unknownVuln)
                  (InstalledVersion unknownVuln)
         ∈ writeReport "docktor-1" "now" [unknownVuln]).
Proof.
  assert (writeReport "docktor-1" "now" [unknownVuln]
          = [Header "docktor-1" "now"; SummaryEnd; Footer]) as Heq
    by (vm_compute; reflexivity).
  split; [exact Heq|]. rewrite Heq. intros [class Hin].
  rewrite !elem_of_cons, elem_of_nil in Hin.
  destruct Hin as [H|[H|[H|[]]]]; discriminate.
Qed.

(** C7 (amended). The report groups the findings by severity in the
    order CRITICAL, HIGH, MEDIUM, LOW: one card for each of these that
    occurs, with the number of its findings, then the detail blocks of
    the findings of each in report order.  Findings of any other
    severity, UNKNOWN among them, appear neither in a card nor in the
    detail section.  A detail block has a fixed-version line exactly when
    the fixed version is not empty. *)
Theorem writeReport_by_severity
    (buildID generated : string) (vulns : list Vulnerability) :
  writeReport buildID generated vulns
  = [Header buildID generated] ++ cards vulns ++ [SummaryEnd]
    ++ details vulns ++ [Footer]
  ∧ writeReport buildID generated vulns
    = writeReport buildID generated
        (filter (λ v, Severity v ∈ severityOrder) vulns)
  ∧ (∀ s f v, FixedVersionLine f ∈ writeVulnerability s v
              ↔ f = FixedVersion v ∧ FixedVersion v ≠ "").
Proof.
  assert (∀ vs, writeReport buildID generated vs
                = [Header buildID generated] ++ cards vs ++ [SummaryEnd]
                  ++ details vs ++ [Footer]) as Hshape.
  { intros vs. unfold writeReport.
    by rewrite writeSummary_cards, writeDetails_details. }
  split; [apply Hshape|split].
  - rewrite !Hshape. unfold cards, details, severityOrder. simpl.
    rewrite !withSeverity_displayed
      by (unfold severityOrder; rewrite !elem_of_cons; tauto).
    done.
  - apply fixed_version_line.
Qed.

End ReportFacts.

(* ================================================================== *)
(** ** Properties of the polling loop *)
(* ================================================================== *)

Module PollerFacts.
Import Gcp.

Section Loop.
Variable getOperation : nat → Operation + error.
Variable abort : error → outcome.
Variable finish : Operation → outcome.

Abbreviation loop := (run getOperation abort finish).

(** The first [k] status requests succeed and report [done = false]. *)
Definition pending (k : nat) : Prop :=
  ∀ i, (i < k)%nat → ∃ op, getOperation i = inl op ∧ Done op = false.

(** The loop after [k] requests that all found the job unfinished. *)
Definition polling (k : nat) : poller outcome :=
  {| samples := k;
     slept := 5 * Z.of_nat k;
     trace := flat_map (λ i, [Sample i; Sleep 5]) (seq 0 k);
     returned := None |}.

Lemma loop_S (fuel : nat) :
  loop (S fuel) = iteration getOperation abort finish (loop fuel).
Proof. reflexivity. Qed.

Lemma loop_pending (k : nat) : pending k → loop k = polling k.
Proof.
  induction k as [|k IH]; intros Hp; [done|].
  rewrite loop_S, IH by (intros i Hi; apply Hp; lia).
  destruct (Hp k) as (op & Hget & Hdone); [lia|].
  unfold iteration, polling. cbn [samples slept trace returned].
  rewrite Hget, Hdone, seq_S, flat_map_app. simpl flat_map.
  f_equal. lia.
Qed.

Lemma loop_returned (n m : nat) (r : outcome) :
  returned (loop n) = Some r → (n ≤ m)%nat → loop m = loop n.
Proof.
  intros Hret Hle. induction Hle as [|m Hle IH]; [done|].
  rewrite loop_S, IH. unfold iteration. by rewrite Hret.
Qed.

(** The loop when request [k] is the first to report [done = true]. *)
Lemma loop_done (k : nat) (op : Operation) :
  pending k → getOperation k = inl op → Done op = true →
  loop (S k) =
    {| samples := S k;
       slept := 5 * Z.of_nat k;
       trace := flat_map (λ i, [Sample i; Sleep 5]) (seq 0 k) ++ [Sample k];
       returned := Some (finish op) |}.
Proof.
  intros Hp Hget Hdone. rewrite loop_S, (loop_pending k Hp).
  unfold iteration, polling. cbn [samples slept trace returned].
  by rewrite Hget, Hdone.
Qed.

(** C8. While the job is unfinished every status request is followed by
    one sleep of 5 seconds; the request that finds [done = true] is
    followed by no sleep and by no further request.  When that is the
    third request, after two sleeps, the loop goes from [Submitted]
    through [Running] to [Succeeded], given that the results are
    retrieved. *)
Theorem poll_fixed_interval (k : nat) (op : Operation) :
  pending k → getOperation k = inl op → Done op = true →
  (∀ j, (j ≤ k)%nat → loop j = polling j)
  ∧ (∀ fuel, (k < fuel)%nat →
       loop fuel =
         {| samples := S k;
            slept := 5 * Z.of_nat k;
            trace := flat_map (λ i, [Sample i; Sleep 5]) (seq 0 k) ++ [Sample k];
            returned := Some (finish op) |})
  ∧ (k = 2%nat → ∀ result disk, finish op = (inl result, disk) →
       phase <$> (loop <$> [0; 1; 2; 3]%nat)
       = [PollerSpec.Submitted; PollerSpec.Running; PollerSpec.Running;
          PollerSpec.Succeeded]).
Proof.
  intros Hp Hget Hdone. split; [|split].
  - intros j Hj. apply loop_pending. intros i Hi. apply Hp. lia.
  - intros fuel Hfuel. rewrite <- (loop_done k op Hp Hget Hdone).
    apply (loop_returned _ _ (finish op)); [|lia].
    by rewrite (loop_done k op Hp Hget Hdone).
  - intros -> result disk Hfin.
    change (phase <$> (loop <$> [0; 1; 2; 3]%nat))
      with [phase (loop 0); phase (loop 1); phase (loop 2); phase (loop 3)].
    rewrite (loop_done 2 op Hp Hget Hdone).
    rewrite !loop_pending by (intros i Hi; apply Hp; lia).
    unfold phase; simpl. by rewrite Hfin.
Qed.

(** C3 (amended). For a job that never reports a terminal outcome,
    every status request succeeding with [done = false], the loop never
    returns and never is [TimedOut]: after [fuel] iterations it has made
    [fuel] requests, has slept [5 * fuel] seconds and is still polling,
    [Submitted] before the first request and [Running] from then on; so
    whatever the budget, there is a moment at which more than the budget
    has been slept and the loop is [Running] and has not returned. *)
Theorem poll_without_budget (fuel : nat) (budget : Z) :
  (∀ k, pending k) →
  returned (loop fuel) = None
  ∧ samples (loop fuel) = fuel
  ∧ slept (loop fuel) = 5 * Z.of_nat fuel
  ∧ phase (loop fuel)
    = match fuel with
      | O => PollerSpec.Submitted
      | S _ => PollerSpec.Running
      end
  ∧ phase (loop fuel) ≠ PollerSpec.TimedOut
  ∧ ∃ n, budget < slept (loop n)
         ∧ returned (loop n) = None
         ∧ phase (loop n) = PollerSpec.Running.
Proof.
  intros Hp.
  assert (∀ n, phase (loop n)
               = match n with
                 | O => PollerSpec.Submitted
                 | S _ => PollerSpec.Running
                 end) as Hphase.
  { intros n. rewrite (loop_pending n (Hp n)). by destruct n. }
  split; [by rewrite (loop_pending fuel (Hp fuel))|].
  split; [by rewrite (loop_pending fuel (Hp fuel))|].
  split; [by rewrite (loop_pending fuel (Hp fuel))|].
  split; [apply Hphase|].
  split; [rewrite Hphase; by destruct fuel|].
  exists (S (Z.to_nat budget)). split; [|split].
  - rewrite (loop_pending _ (Hp _)). unfold polling. cbn [slept]. lia.
  - by rewrite (loop_pending _ (Hp _)).
  - apply Hphase.
Qed.
End Loop.

(** A build that is never finished, and one that is finished at the
    third request. *)
Definition unfinished : Operation := {| Done := false; Metadata := None |}.
Definition finished : Operation := {| Done := true; Metadata := None |}.

Definition neverDone (n : nat) : Operation + error := inl unfinished.

Definition doneAtThird (n : nat) : Operation + error :=
  if (n <? 2)%nat then inl unfinished else inl finished.

Definition service (get : nat → Operation + error) : BuildService :=
  {| bucketAttrs := None; bucketCreate := None; uploadContext := None;
     dockerfileRel := inl "Dockerfile"; createBuild := None;
     operationGet := get |}.

Definition noTimes (op : Operation) : string * string := ("", "").

Definition acceptEmpty (content : list byte) : trivyOutput + error :=
  inl {| Results := [] |}.

Definition scannedStore : Storage :=
  {| objects := {[ ("p-docktor-builds", "docktor-1/scan-results.json") := [x7b; x7d] ]};
     attrsFault := None; readerFault := None;
     readFault := None; deleteFault := None |}.

(** With a budget of 10 seconds the loop should be [TimedOut] after 11
    seconds at the latest; after three iterations it has slept 15
    seconds, has not returned and is [Running]. *)
Lemma never_done_polls_on :
  let p := waitForBuild acceptEmpty "now" noTimes (service neverDone)
             scannedStore RetrieveFacts.goodOS "p" "docktor-1" ∅ 3 in
  slept p = 15 ∧ 10 + 1 < slept p
  ∧ returned p = None
  ∧ phase p = PollerSpec.Running
  ∧ BuildAndScanImage acceptEmpty "now" noTimes (service neverDone)
      scannedStore RetrieveFacts.goodOS "p" "docktor-1" ∅ 3 = None.
Proof. vm_compute. repeat split. Qed.

Lemma pending_neverDone (k : nat) : pending neverDone k.
Proof. intros i _. exists unfinished. done. Qed.

Lemma poll_without_budget_witness :
  let loop := run neverDone (λ err, (inr err, ∅))
                (completed acceptEmpty "now" noTimes scannedStore
                   RetrieveFacts.goodOS "p" "docktor-1" ∅) in
  returned (loop 3%nat) = None ∧ samples (loop 3%nat) = 3%nat
  ∧ slept (loop 3%nat) = 5 * Z.of_nat 3
  ∧ phase (loop 3%nat) = PollerSpec.Running
  ∧ phase (loop 3%nat) ≠ PollerSpec.TimedOut
  ∧ ∃ n, 10 < slept (loop n) ∧ returned (loop n) = None
         ∧ phase (loop n) = PollerSpec.Running.
Proof.
  apply (poll_without_budget neverDone (λ err, (inr err, ∅))
           (completed acceptEmpty "now" noTimes scannedStore
              RetrieveFacts.goodOS "p" "docktor-1" ∅) 3 10).
  apply pending_neverDone.
Defined.

Lemma poll_fixed_interval_witness :
  let finish := completed acceptEmpty "now" noTimes scannedStore
                  RetrieveFacts.goodOS "p" "docktor-1" ∅ in
  let loop := run doneAtThird (λ err, (inr err, ∅)) finish in
  (∀ j, (j ≤ 2)%nat → loop j = polling j)
  ∧ (∀ fuel, (2 < fuel)%nat →
       loop fuel =
         {| samples := 3;
            slept := 5 * Z.of_nat 2;
            trace := flat_map (λ i, [Sample i; Sleep 5]) (seq 0 2) ++ [Sample 2%nat];
            returned := Some (finish finished) |})
  ∧ phase <$> (loop <$> [0; 1; 2; 3]%nat)
    = [PollerSpec.Submitted; PollerSpec.Running; PollerSpec.Running;
       PollerSpec.Succeeded].
Proof.
  intros finish loop.
  assert (pending doneAtThird 2) as Hp.
  { intros i Hi. exists unfinished. unfold doneAtThird.
    destruct i as [|[|i]]; [done|done|lia]. }
  destruct (poll_fixed_interval doneAtThird (λ err, (inr err, ∅)) finish
              2 finished Hp eq_refl eq_refl) as (H1 & H2 & H3).
  split; [exact H1|split; [exact H2|]].
  eapply (H3 eq_refl). vm_compute. reflexivity.
Defined.

End PollerFacts.

(* ================================================================== *)
(** ** Properties of the context archive *)
(* ================================================================== *)

Module ArchiveFacts.
Import GoStrings Gcp.

(** Induction over a tree, with the hypothesis for every entry of a
    directory. *)
Fixpoint node_ind (P : node → Prop)
    (HFile : ∀ name, P (File name))
    (HDir : ∀ name entries, Forall P entries → P (Dir name entries))
    (n : node) : P n :=
  match n with
  | File name => HFile name
  | Dir name entries =>
      HDir name entries
        ((fix all (l : list node) : Forall P l :=
            match l with
            | [] => List.Forall_nil P
            | x :: l' => List.Forall_cons P x l' (node_ind P HFile HDir x) (all l')
            end) entries)
  end.

Lemma Forall_flat_map {A B} (P : B → Prop) (f : A → list B) (l : list A) :
  Forall (λ x, Forall P (f x)) l → Forall P (flat_map f l).
Proof.
  induction 1 as [|x l Hx _ IH]; simpl; [constructor|].
  apply Forall_app. done.
Qed.

(** Every header written by the walk is a path that [shouldExclude]
    lets through. *)
Lemma walk_not_excluded (gitignore : option (string → bool)) (n : node) :
  ∀ dir, Forall (λ e, shouldExclude gitignore e = false) (walk gitignore dir n).
Proof.
  induction n as [name|name entries IH] using node_ind; intros dir; simpl.
  - destruct (shouldExclude gitignore (relPath dir name)) eqn:He; repeat constructor.
    done.
  - destruct (shouldExclude gitignore (relPath dir name)) eqn:He; [constructor|].
    constructor; [done|]. apply Forall_flat_map.
    eapply Forall_impl; [exact IH|]. intros x Hx. apply Hx.
Qed.

Lemma archiveEntries_not_excluded (gitignore : option (string → bool)) (root : node) :
  Forall (λ e, shouldExclude gitignore e = false) (archiveEntries gitignore root).
Proof.
  destruct root as [name|name entries]; simpl; [constructor|].
  apply Forall_flat_map, Forall_forall. intros n _. apply walk_not_excluded.
Qed.

(** No header is a path matched by the loaded patterns, or a path whose
    last element is hidden. *)
Lemma archiveEntries_not_ignored (MatchesPath : string → bool) (root : node) :
  Forall (λ e, MatchesPath e = false ∧ HasPrefix (Base e) "." = false)
         (archiveEntries (Some MatchesPath) root).
Proof.
  eapply Forall_impl; [apply archiveEntries_not_excluded|].
  intros e. unfold shouldExclude.
  destruct (Contains e "/node_modules/" || HasSuffix e "/node_modules"); [done|].
  destruct (HasPrefix (Base e) "."); [done|].
  destruct (String.eqb (Base e) ".git"); done.
Qed.

(** Names of directory entries: not empty and without a slash. *)
Fixpoint slashFree (name : string) : bool :=
  match name with
  | EmptyString => true
  | String c rest => negb (Ascii.eqb c slash) && slashFree rest
  end.

Definition entryName (name : string) : Prop :=
  name ≠ "" ∧ slashFree name = true.

Lemma append_nil_l (b : string) : "" +:+ b = b.
Proof. reflexivity. Qed.

Lemma append_cons (c : ascii) (a b : string) :
  String c a +:+ b = String c (a +:+ b).
Proof. reflexivity. Qed.

Lemma append_nil_r (a : string) : a +:+ "" = a.
Proof. induction a as [|c a IH]; [done|]. by rewrite append_cons, IH. Qed.

Lemma append_snoc (cur : string) (c : ascii) (rest : string) :
  (cur +:+ String c EmptyString) +:+ rest = cur +:+ String c rest.
Proof.
  induction cur as [|d cur IH]; [done|]. by rewrite !append_cons, IH.
Qed.

Lemma lastElement_slashFree (name cur : string) :
  slashFree name = true → lastElement cur name = cur +:+ name.
Proof.
  revert cur. induction name as [|c name IH]; intros cur Hfree.
  - cbn. by rewrite append_nil_r.
  - cbn in Hfree. apply andb_true_iff in Hfree as [Hc Hfree].
    cbn. apply negb_true_iff in Hc. rewrite Hc.
    rewrite IH by done. apply append_snoc.
Qed.

Lemma lastElement_below (dir name cur : string) :
  lastElement cur (dir +:+ String slash name) = lastElement "" name.
Proof.
  revert cur. induction dir as [|c dir IH]; intros cur; [done|].
  rewrite append_cons. cbn. destruct (Ascii.eqb c slash); apply IH.
Qed.

Lemma strip_entryName (name : string) :
  entryName name → stripTrailingSlashes name = name.
Proof.
  intros [Hne Hfree]. induction name as [|c name IH]; [done|].
  cbn in Hfree. apply andb_true_iff in Hfree as [Hc Hfree].
  apply negb_true_iff in Hc.
  cbn. destruct name as [|d name].
  - cbn. by rewrite Hc.
  - rewrite IH by done. done.
Qed.

Lemma strip_below (dir name : string) :
  entryName name →
  stripTrailingSlashes (dir +:+ String slash name) = dir +:+ String slash name.
Proof.
  intros Hname. induction dir as [|c dir IH].
  - rewrite append_nil_l. cbn. rewrite (strip_entryName name Hname).
    destruct Hname as [Hne _]. by destruct name.
  - rewrite append_cons. cbn. rewrite IH. by destruct dir.
Qed.

(** The last element of the relative path of an entry is its name. *)
Lemma Base_relPath (dir name : string) :
  entryName name → Base (relPath dir name) = name.
Proof.
  intros Hname. pose proof Hname as [Hne Hfree]. unfold relPath, Base.
  destruct (String.eqb_spec dir "") as [->|Hdir].
  - destruct (String.eqb_spec name "") as [|_]; [done|].
    rewrite (strip_entryName name Hname), lastElement_slashFree by done.
    rewrite append_nil_l. destruct (String.eqb_spec name "") as [|_]; done.
  - change (dir +:+ "/" +:+ name) with (dir +:+ String slash name).
    destruct (String.eqb_spec (dir +:+ String slash name) "") as [Heq|_].
    { destruct dir; discriminate. }
    rewrite (strip_below dir name Hname), lastElement_below.
    rewrite lastElement_slashFree by done. rewrite append_nil_l.
    destruct (String.eqb_spec name "") as [|_]; done.
Qed.

(** A hidden file or directory, at any depth, is left out together with
    everything below it, with or without patterns. *)
Lemma hidden_subtree_omitted
    (gitignore : option (string → bool)) (dir name : string) (entries : list node) :
  entryName name → HasPrefix name "." = true →
  shouldExclude gitignore (relPath dir name) = true
  ∧ walk gitignore dir (File name) = []
  ∧ walk gitignore dir (Dir name entries) = [].
Proof.
  intros Hname Hdot.
  assert (shouldExclude gitignore (relPath dir name) = true) as H.
  { unfold shouldExclude. rewrite (Base_relPath dir name Hname), Hdot.
    by destruct (_ || _). }
  cbn. by rewrite H.
Qed.

(** A [node_modules] directory below the top level is excluded, with or
    without patterns. *)
Lemma substring_all (b : string) :
  String.substring 0 (String.length b) b = b.
Proof. induction b as [|c b IH]; simpl; [done|]. by rewrite IH. Qed.

Lemma substring_append (a b : string) :
  String.substring (String.length a) (String.length b) (a +:+ b) = b.
Proof. induction a as [|c a IH]; [apply substring_all|exact IH]. Qed.

Lemma length_append (a b : string) :
  String.length (a +:+ b) = (String.length a + String.length b)%nat.
Proof.
  induction a as [|c a IH]; [done|].
  change (S (String.length (a +:+ b)) = S (String.length a + String.length b)).
  by rewrite IH.
Qed.

Lemma HasSuffix_append (a b : string) : HasSuffix (a +:+ b) b = true.
Proof.
  unfold HasSuffix. rewrite length_append.
  replace (String.length a + String.length b - String.length b)%nat
    with (String.length a) by lia.
  rewrite substring_append, String.eqb_refl, andb_true_r.
  apply Nat.leb_le. lia.
Qed.

Lemma nested_node_modules_excluded
    (gitignore : option (string → bool)) (dir : string) :
  shouldExclude gitignore (relPath (dir +:+ "x") "node_modules") = true
  ∧ shouldExclude gitignore (dir +:+ "/node_modules") = true.
Proof.
  assert (shouldExclude gitignore (dir +:+ "/node_modules") = true) as H.
  { unfold shouldExclude. by rewrite HasSuffix_append, orb_true_r. }
  split; [|done]. unfold relPath, shouldExclude.
  destruct (String.eqb_spec (dir +:+ "x") "") as [Heq|_].
  - destruct dir; discriminate.
  - by rewrite HasSuffix_append, orb_true_r.
Qed.

(** A build context with a hidden file, a [node_modules] directory at
    the top and one further down, and no [.gitignore]. *)
Definition nodeProject : node :=
  Dir "."
    [ File ".env";
      File "app.js";
      Dir "node_modules" [ File "index.js" ];
      Dir "src" [ File "main.go"; Dir "node_modules" [ File "dep.js" ] ] ].

(** C4. On this context the archive leaves out the hidden file and the
    nested [node_modules], but holds the top-level [node_modules]
    directory and the file in it: its relative path has no slash before
    [node_modules], so neither test of [shouldExclude] fires. *)
Theorem top_level_node_modules_archived :
  archiveEntries None nodeProject
  = ["app.js"; "node_modules"; "node_modules/index.js"; "src"; "src/main.go"]
  ∧ shouldExclude None "node_modules" = false
  ∧ shouldExclude None "src/node_modules" = true.
Proof. vm_compute. repeat split. Qed.

End ArchiveFacts.

(* ================================================================== *)
(** ** Properties of the scan command *)
(* ================================================================== *)

Module CmdFacts.
Import Gcp Cmd.

(** C9. In a run whose build and scan succeeded, the command returns no
    error whether or not the cleanup fails; it prints the same results,
    followed by one warning line when the cleanup failed and by nothing
    otherwise. *)
Theorem cleanup_failure_is_a_warning
    (c : Calls) (absContextPath absDockerfilePath : string)
    (result : BuildResult) :
  LoadConfig c = None → NewClient c = None →
  AbsContext c = inl absContextPath →
  AbsDockerfile c = inl absDockerfilePath →
  BuildAndScanImage c absContextPath absDockerfilePath = inl result →
  (scanCmd c).2 = None
  ∧ (scanCmd c).1
    = [Println "Starting build and scan..."] ++ printResults result
      ++ match Cleanup c (ID result) with
         | Some err =>
             [Printf "Warning: failed to cleanup build artifacts: %v\n" [Error err]]
         | None => []
         end.
Proof.
  intros Hcfg Hcli Hctx Hdf Hrun. unfold scanCmd.
  rewrite Hcfg, Hcli, Hctx, Hdf, Hrun.
  destruct (Cleanup c (ID result)); simpl; done.
Qed.

Definition success : BuildResult :=
  {| ID := "docktor-1"; Status := "SUCCESS"; StartTime := "t0"; EndTime := "t1";
     Logs := "https://console.cloud.google.com/cloud-build/builds/docktor-1?project=p";
     Scan := {| Vulnerabilities := [] |} |}.

(** The calls of a run that succeeds, with the cleanup of [Gcp.Cleanup]
    against a store that refuses to delete. *)
Definition failingCleanup : Calls :=
  {| LoadConfig := None; NewClient := None;
     AbsContext := inl "/work"; AbsDockerfile := inl "/work/Dockerfile";
     BuildAndScanImage := λ _ _, inl success;
     Cleanup := λ buildID,
       (Gcp.Cleanup {| objects := ∅; attrsFault := None; readerFault := None;
                       readFault := None;
                       deleteFault := Some (External "403 Forbidden") |}
                    "p" buildID).1 |}.

Lemma cleanup_failure_is_a_warning_witness :
  (scanCmd failingCleanup).2 = None
  ∧ (scanCmd failingCleanup).1
    = [Println "Starting build and scan..."] ++ printResults success
      ++ [Printf "Warning: failed to cleanup build artifacts: %v\n"
            ["failed to delete build context: 403 Forbidden"]].
Proof.
  apply (cleanup_failure_is_a_warning failingCleanup "/work" "/work/Dockerfile"
           success); reflexivity.
Defined.

End CmdFacts.

(* ================================================================== *)
(** ** Further properties of package scanner *)
(* ================================================================== *)

Module ScannerMore.
Import GoStrings Scanner ScannerOutput.

Lemma FilterBySeverity_eq (r : ScanReport) (minSeverity : Severity) :
  FilterBySeverity r minSeverity
  = {| ImageName := ImageName r;
       ScanTime := ScanTime r;
       Vulnerabilities :=
         filter (λ v, level (severity v) >= level minSeverity)
                (Vulnerabilities r) |}.
Proof. unfold FilterBySeverity. by rewrite ScannerFacts.keep_loop. Qed.

(** Every severity string is one of the five constants, with its level,
    or has level 0. *)
Lemma level_cases (s : Severity) :
  (s = SeverityCritical ∧ level s = 4) ∨ (s = SeverityHigh ∧ level s = 3)
  ∨ (s = SeverityMedium ∧ level s = 2) ∨ (s = SeverityLow ∧ level s = 1)
  ∨ (s ≠ SeverityCritical ∧ s ≠ SeverityHigh ∧ s ≠ SeverityMedium
     ∧ s ≠ SeverityLow ∧ level s = 0).
Proof.
  destruct (decide (s = SeverityCritical)) as [->|H1]; [left; by vm_compute|].
  destruct (decide (s = SeverityHigh)) as [->|H2]; [right; left; by vm_compute|].
  destruct (decide (s = SeverityMedium)) as [->|H3];
    [right; right; left; by vm_compute|].
  destruct (decide (s = SeverityLow)) as [->|H4];
    [right; right; right; left; by vm_compute|].
  do 4 right. repeat split; try done.
  destruct (decide (s = SeverityUnknown)) as [->|H5]; [by vm_compute|].
  by apply ScannerFacts.level_unnamed.
Qed.

(** X1. Filtering twice keeps what passes both thresholds: the order of
    the two filters does not matter, and a second filter whose threshold
    is not above the first changes nothing; in particular filtering is
    idempotent. *)
Theorem FilterBySeverity_twice (r : ScanReport) (a b : Severity) :
  FilterBySeverity (FilterBySeverity r a) b
  = FilterBySeverity (FilterBySeverity r b) a
  ∧ (level b <= level a →
     FilterBySeverity (FilterBySeverity r a) b = FilterBySeverity r a)
  ∧ FilterBySeverity (FilterBySeverity r a) a = FilterBySeverity r a.
Proof.
  assert (∀ x y, level y <= level x →
            FilterBySeverity (FilterBySeverity r x) y = FilterBySeverity r x)
    as Hle.
  { intros x y Hxy. rewrite !FilterBySeverity_eq. simpl. f_equal.
    rewrite list_filter_filter. apply list_filter_iff. intros v. lia. }
  split; [|split].
  - rewrite !FilterBySeverity_eq. simpl. f_equal.
    rewrite !list_filter_filter. apply list_filter_iff. intros v. tauto.
  - apply Hle.
  - apply Hle. lia.
Qed.

Definition mixed : ScanReport :=
  mkScanReport "img" "now"
    [ mkVulnerability "CVE-1" "t1" "d1" "LOW" "p1" "1" "" "";
      mkVulnerability "CVE-2" "t2" "d2" "CRITICAL" "p2" "1" "2" "";
      mkVulnerability "CVE-3" "t3" "d3" "negligible" "p3" "1" "" "";
      mkVulnerability "CVE-4" "t4" "d4" "HIGH" "p4" "1" "" "" ].

Lemma FilterBySeverity_twice_witness :
  FilterBySeverity (FilterBySeverity mixed "HIGH") "LOW"
  = FilterBySeverity mixed "HIGH".
Proof.
  apply (proj1 (proj2 (FilterBySeverity_twice mixed "HIGH" "LOW"))).
  vm_compute. discriminate.
Defined.

(** X2. Raising the threshold only removes entries: the report filtered
    at the higher level is a subsequence of the one filtered at the
    lower level. *)
Theorem FilterBySeverity_monotone (r : ScanReport) (a b : Severity) :
  level a <= level b →
  sublist (Vulnerabilities (FilterBySeverity r b))
          (Vulnerabilities (FilterBySeverity r a)).
Proof.
  intros Hab.
  assert (Vulnerabilities (FilterBySeverity r b)
          = filter (λ v, level (severity v) >= level b)
                   (Vulnerabilities (FilterBySeverity r a))) as ->.
  { rewrite !FilterBySeverity_eq. simpl. rewrite list_filter_filter.
    apply list_filter_iff. intros v. lia. }
  apply sublist_filter.
Qed.

Lemma FilterBySeverity_monotone_witness :
  sublist (Vulnerabilities (FilterBySeverity mixed "CRITICAL"))
          (Vulnerabilities (FilterBySeverity mixed "MEDIUM")).
Proof.
  apply (FilterBySeverity_monotone mixed "MEDIUM" "CRITICAL").
  vm_compute. discriminate.
Defined.

(** X3. The threshold CRITICAL keeps exactly the entries whose severity
    is the string CRITICAL; the threshold LOW keeps exactly those whose
    severity is CRITICAL, HIGH, MEDIUM or LOW; the threshold UNKNOWN
    keeps the report as it is. *)
Theorem FilterBySeverity_thresholds (r : ScanReport) (v : Vulnerability) :
  (v ∈ Vulnerabilities (FilterBySeverity r SeverityCritical)
   ↔ v ∈ Vulnerabilities r ∧ severity v = SeverityCritical)
  ∧ (v ∈ Vulnerabilities (FilterBySeverity r SeverityLow)
     ↔ v ∈ Vulnerabilities r
       ∧ severity v ∈ [SeverityCritical; SeverityHigh; SeverityMedium;
                       SeverityLow])
  ∧ FilterBySeverity r SeverityUnknown = r.
Proof.
  split; [|split].
  - rewrite FilterBySeverity_eq. simpl. rewrite list_elem_of_filter.
    change (level SeverityCritical) with 4.
    destruct (level_cases (severity v)) as [[E L]|[[E L]|[[E L]|[[E L]|H]]]];
      rewrite ?L.
    + split; [intros [_ ?]; done|intros [? _]; split; [lia|done]].
    + rewrite E. split; [intros [? _]; lia|intros [_ ?]; discriminate].
    + rewrite E. split; [intros [? _]; lia|intros [_ ?]; discriminate].
    + rewrite E. split; [intros [? _]; lia|intros [_ ?]; discriminate].
    + destruct H as (N1 & _ & _ & _ & L). rewrite L.
      split; [intros [? _]; lia|intros [_ ?]; done].
  - rewrite FilterBySeverity_eq. simpl. rewrite list_elem_of_filter.
    change (level SeverityLow) with 1. rewrite !elem_of_cons, elem_of_nil.
    destruct (level_cases (severity v)) as [[E L]|[[E L]|[[E L]|[[E L]|H]]]];
      rewrite ?L.
    + split; [intros [_ ?]; tauto|intros [? _]; split; [lia|done]].
    + split; [intros [_ ?]; tauto|intros [? _]; split; [lia|done]].
    + split; [intros [_ ?]; tauto|intros [? _]; split; [lia|done]].
    + split; [intros [_ ?]; tauto|intros [? _]; split; [lia|done]].
    + destruct H as (N1 & N2 & N3 & N4 & L). rewrite L.
      split; [intros [? _]; lia|intros [_ ?]; tauto].
  - destruct r as [img tm vs]. rewrite FilterBySeverity_eq. simpl. f_equal.
    apply ScannerFacts.filter_level_zero.
Qed.

(** The counter of a severity is the number of entries that carry it. *)
Lemma severityCount_index (vulns : list Vulnerability) (s : string) :
  index 0 (severityCount vulns) s
  = Z.of_nat (length (filter (λ v, severity v = s) vulns)).
Proof.
  induction vulns as [|v vulns IH] using rev_ind; [done|].
  unfold severityCount in *. rewrite foldl_app. simpl.
  rewrite filter_app, length_app, filter_cons, filter_nil.
  unfold index at 1. destruct (decide (severity v = s)) as [->|Hne].
  - rewrite lookup_insert_eq. simpl. rewrite IH. simpl. lia.
  - rewrite lookup_insert_ne by done. fold (index 0 (foldl
      (λ m vuln, <[severity vuln := index 0 m (severity vuln) + 1]> m)
      ∅ vulns) s). rewrite IH. simpl. lia.
Qed.

(** The entries split into those of the five named severities and the
    rest. *)
Lemma length_by_severity (vulns : list Vulnerability) :
  length vulns
  = (length (filter (λ v, severity v = SeverityCritical) vulns)
     + length (filter (λ v, severity v = SeverityHigh) vulns)
     + length (filter (λ v, severity v = SeverityMedium) vulns)
     + length (filter (λ v, severity v = SeverityLow) vulns)
     + length (filter (λ v, severity v = SeverityUnknown) vulns)
     + length (filter (λ v, unnamed (severity v)) vulns))%nat.
Proof.
  induction vulns as [|v vulns IH]; [done|].
  rewrite !filter_cons. simpl length. rewrite IH. unfold unnamed.
  repeat case_decide; simpl; try lia;
    repeat match goal with
           | H : severity v = _ |- _ => rewrite H in *
           end; try discriminate; try tauto.
Qed.

(** X4. [PrintSummary] prints, for each of the five named severities,
    the number of entries of the report with that severity, and the
    length of the report as total; the total exceeds the sum of the five
    numbers by the number of entries whose severity is none of the
    five. *)
Theorem PrintSummary_counts (r : ScanReport) :
  let count s :=
    Z.of_nat (length (filter (λ v, severity v = s) (Vulnerabilities r))) in
  PrintSummary r
  = [ Println "\nScan Summary:";
      Printf "Total vulnerabilities: %d\n" (Z.of_nat (length (Vulnerabilities r)));
      Printf "Critical: %d\n" (count SeverityCritical);
      Printf "High: %d\n" (count SeverityHigh);
      Printf "Medium: %d\n" (count SeverityMedium);
      Printf "Low: %d\n" (count SeverityLow);
      Printf "Unknown: %d\n" (count SeverityUnknown) ]
  ∧ Z.of_nat (length (Vulnerabilities r))
    = count SeverityCritical + count SeverityHigh + count SeverityMedium
      + count SeverityLow + count SeverityUnknown
      + Z.of_nat (length (filter (λ v, unnamed (severity v))
                                 (Vulnerabilities r))).
Proof.
  intros count. split.
  - unfold PrintSummary. by rewrite !severityCount_index.
  - unfold count. rewrite (length_by_severity (Vulnerabilities r)) at 1. lia.
Qed.

(** The loops of [GenerateHTML] and [GenerateTable] add one element per
    entry. *)
Lemma append_loop {A B} (f : B → A) (l : list B) (acc : list A) :
  foldl (λ acc x, acc ++ [f x]) acc l = acc ++ (f <$> l).
Proof.
  revert acc. induction l as [|x l IH]; intros acc; simpl.
  - by rewrite app_nil_r.
  - rewrite IH, <- app_assoc. done.
Qed.

Lemma sublist_map {A B} (f : A → B) (l1 l2 : list A) :
  sublist l1 l2 → sublist (f <$> l1) (f <$> l2).
Proof. induction 1; simpl; by constructor. Qed.

Definition htmlRow (vuln : Vulnerability) : piece :=
  Row (ToLower (severity vuln)) (severity vuln) (Package vuln) (Version vuln)
      (FixedIn vuln) (Title vuln) (Description vuln).

Definition tableRow (vuln : Vulnerability) : list string :=
  [severity vuln; Package vuln; Version vuln; FixedIn vuln; Title vuln].

(** X5. The HTML document and the table have one row per entry of the
    report, in report order and whatever the severity; rendering a
    filtered report gives the same head and a subsequence of the rows. *)
Theorem rendering_keeps_every_entry (r : ScanReport) (minSeverity : Severity) :
  GenerateHTML r
  = [Preamble (ImageName r) (ScanTime r)] ++ (htmlRow <$> Vulnerabilities r)
    ++ [Closing]
  ∧ GenerateTable r
    = [ ["SEVERITY"; "PACKAGE"; "VERSION"; "FIXED IN"; "TITLE"];
        ["--------"; "-------"; "-------"; "--------"; "-----"] ]
      ++ (tableRow <$> Vulnerabilities r)
  ∧ sublist (GenerateHTML (FilterBySeverity r minSeverity)) (GenerateHTML r)
  ∧ sublist (GenerateTable (FilterBySeverity r minSeverity)) (GenerateTable r).
Proof.
  assert (∀ r', GenerateHTML r'
                = [Preamble (ImageName r') (ScanTime r')]
                  ++ (htmlRow <$> Vulnerabilities r') ++ [Closing]) as Hhtml.
  { intros r'. unfold GenerateHTML.
    rewrite (append_loop htmlRow). by rewrite <- app_assoc. }
  assert (∀ r', GenerateTable r'
                = [ ["SEVERITY"; "PACKAGE"; "VERSION"; "FIXED IN"; "TITLE"];
                    ["--------"; "-------"; "-------"; "--------"; "-----"] ]
                  ++ (tableRow <$> Vulnerabilities r')) as Htable.
  { intros r'. unfold GenerateTable. by rewrite (append_loop tableRow). }
  split; [apply Hhtml|split; [apply Htable|]].
  assert (sublist (Vulnerabilities (FilterBySeverity r minSeverity))
                  (Vulnerabilities r)) as Hsub.
  { rewrite FilterBySeverity_eq. apply sublist_filter. }
  split.
  - rewrite !Hhtml. rewrite FilterBySeverity_eq at 1 2. simpl ImageName.
    simpl ScanTime. apply sublist_app; [done|].
    apply sublist_app; [|done]. by apply sublist_map.
  - rewrite !Htable. apply sublist_app; [done|]. by apply sublist_map.
Qed.

End ScannerMore.

(* ================================================================== *)
(** ** Properties of ScanImage *)
(* ================================================================== *)

Module ScanImageFacts.
Import Scanner ScanImage.

Section Poll.
Variables (m : Machine) (pid : Z) (sent0 : list command).

Abbreviation loop := (poll_loop m pid sent0).

(** The first [k] checks found the process running within the time
    allowed. *)
Definition running (k : nat) : Prop :=
  ∀ i, (i < k)%nat →
    ∃ status, checked m i = Decoded status
              ∧ String.eqb status "completed" = false
              ∧ since m i <= timeout.

Lemma scan_loop_S (fuel : nat) : loop (S fuel) = iteration m pid (loop fuel).
Proof. reflexivity. Qed.

Lemma loop_running (k : nat) :
  running k →
  loop k = {| checks := k;
              sent := sent0 ++ replicate k (CheckProcess pid);
              finished := None |}.
Proof.
  induction k as [|k IH]; intros Hrun.
  - unfold poll_loop. simpl. by rewrite app_nil_r.
  - rewrite scan_loop_S, IH by (intros i Hi; apply Hrun; lia).
    destruct (Hrun k) as (status & Hc & Hs & Ht); [lia|].
    unfold iteration. cbn [checks sent finished]. rewrite Hc, Hs.
    rewrite bool_decide_eq_false_2 by lia.
    rewrite <- app_assoc. do 2 f_equal.
    change [CheckProcess pid] with (replicate 1 (CheckProcess pid)).
    rewrite <- replicate_add. f_equal. lia.
Qed.

Lemma loop_finished (n k : nat) (r : option error) :
  finished (loop n) = Some r → (n ≤ k)%nat → loop k = loop n.
Proof.
  intros Hfin Hle. induction Hle as [|k Hle IH]; [done|].
  rewrite scan_loop_S, IH. unfold iteration. by rewrite Hfin.
Qed.

Lemma loop_unfinished (n : nat) :
  finished (loop n) = None → checks (loop n) = n.
Proof.
  induction n as [|n IH]; [done|]. rewrite scan_loop_S. unfold iteration.
  destruct (finished (loop n)) as [r|] eqn:Hfin.
  - rewrite Hfin. discriminate.
  - rewrite IH by done.
    destruct (checked m n) as [e|e|e|status]; try discriminate.
    destruct (String.eqb status "completed"); [discriminate|].
    destruct (bool_decide (since m n > timeout)); [discriminate|]. done.
Qed.

(** With a clock that has advanced by the second slept in each earlier
    iteration, the loop has ended after 602 iterations. *)
Lemma loop_ends :
  (∀ n, Z.of_nat n * Second <= since m n) →
  ∃ r, finished (loop 602) = Some r.
Proof.
  intros Htick. rewrite scan_loop_S.
  destruct (finished (loop 601)) as [r|] eqn:Hfin.
  - exists r. unfold iteration. by rewrite Hfin.
  - pose proof (loop_unfinished 601 Hfin) as Hchecks.
    unfold iteration. rewrite Hfin, Hchecks.
    destruct (checked m 601) as [e|e|e|status]; eauto.
    destruct (String.eqb status "completed"); eauto.
    rewrite bool_decide_eq_true_2; eauto.
    specialize (Htick 601%nat). unfold timeout, Minute, Second in *. lia.
Qed.
End Poll.

(** X6. [ScanImage] polls for a bounded time: when the clock read in the
    [n]-th iteration shows at least the [n] seconds slept before it, the
    function has returned after at most 602 iterations, whatever the
    machine answers. *)
Theorem ScanImage_returns (m : Machine) (now imageName : string) :
  (∀ n, Z.of_nat n * Second <= since m n) →
  ∃ r, (ScanImage m now imageName 602).2 = Some r.
Proof.
  intros Htick. unfold ScanImage.
  destruct (started m) as [e|e|e|pid]; [eexists; reflexivity..|].
  destruct (loop_ends m pid [StartScan imageName] Htick) as [r Hr].
  rewrite Hr. destruct r as [err|]; [eexists; reflexivity|].
  destruct (results m) as [e|e|e|vulns]; eexists; reflexivity.
Qed.

(** X7. A scan found completed at check [k] is accepted even when the
    time allowed has passed by then: the results are read, the result
    file is removed, and the report carries the image name, the time and
    the decoded vulnerabilities; one check was sent per iteration and no
    kill. *)
Theorem ScanImage_completed
    (m : Machine) (now imageName : string) (pid : Z) (k fuel : nat)
    (vulns : list Vulnerability) :
  started m = Decoded pid →
  running m k →
  checked m k = Decoded "completed" →
  results m = Decoded vulns →
  (k < fuel)%nat →
  ScanImage m now imageName fuel
  = ([StartScan imageName] ++ replicate (S k) (CheckProcess pid)
       ++ [ReadResults; RemoveResults],
     Some (inl {| ImageName := imageName; ScanTime := now;
                  Vulnerabilities := vulns |})).
Proof.
  intros Hstart Hrun Hdone Hres Hfuel. unfold ScanImage. rewrite Hstart.
  assert (poll_loop m pid [StartScan imageName] (S k)
          = {| checks := S k;
               sent := [StartScan imageName] ++ replicate (S k) (CheckProcess pid);
               finished := Some None |}) as Hk.
  { rewrite scan_loop_S, (loop_running m pid _ k Hrun).
    unfold iteration. cbn [checks sent finished]. rewrite Hdone. simpl String.eqb.
    cbn iota. f_equal. rewrite <- app_assoc. f_equal.
    change [CheckProcess pid] with (replicate 1 (CheckProcess pid)).
    rewrite <- replicate_add. f_equal. lia. }
  rewrite (loop_finished m pid _ (S k) fuel None) by (rewrite ?Hk; done || lia).
  rewrite Hk. cbn [finished sent]. rewrite Hres. by rewrite <- app_assoc.
Qed.

(** X8. A scan still running at check [k] with the time allowed used up
    is killed: the function returns the time-out error, the last command
    sent is the kill, and the results are neither read nor removed. *)
Theorem ScanImage_timed_out
    (m : Machine) (now imageName status : string) (pid : Z) (k fuel : nat) :
  started m = Decoded pid →
  running m k →
  checked m k = Decoded status →
  String.eqb status "completed" = false →
  since m k > timeout →
  (k < fuel)%nat →
  ScanImage m now imageName fuel
  = ([StartScan imageName] ++ replicate (S k) (CheckProcess pid)
       ++ [KillProcess pid],
     Some (inr (External "scan timed out after 10m0s"))).
Proof.
  intros Hstart Hrun Hc Hs Ht Hfuel. unfold ScanImage. rewrite Hstart.
  assert (poll_loop m pid [StartScan imageName] (S k)
          = {| checks := S k;
               sent := [StartScan imageName] ++ replicate (S k) (CheckProcess pid)
                       ++ [KillProcess pid];
               finished := Some (Some (External "scan timed out after 10m0s")) |})
    as Hk.
  { rewrite scan_loop_S, (loop_running m pid _ k Hrun).
    unfold iteration. cbn [checks sent finished]. rewrite Hc, Hs.
    rewrite bool_decide_eq_true_2 by done. f_equal.
    rewrite <- !app_assoc. f_equal.
    change [CheckProcess pid; KillProcess pid]
      with (replicate 1 (CheckProcess pid) ++ [KillProcess pid]).
    rewrite app_assoc, <- replicate_add. do 2 f_equal. lia. }
  rewrite (loop_finished m pid _ (S k) fuel
             (Some (External "scan timed out after 10m0s")))
    by (rewrite ?Hk; done || lia).
  by rewrite Hk.
Qed.

(** A machine whose scan never ends, with a clock that ticks once per
    iteration, and one whose scan is complete at the second check, read
    eleven minutes after the start. *)
Definition stuck : Machine :=
  {| started := Decoded 4242;
     checked := λ _, Decoded "running";
     results := DecodeFailed (External "unexpected end of JSON input");
     since := λ n, Z.of_nat n * Second |}.

Definition slowButDone : Machine :=
  {| started := Decoded 4242;
     checked := λ n, if (n <? 1)%nat then Decoded "running" else Decoded "completed";
     results := Decoded [];
     since := λ n, Z.of_nat n * 11 * Minute |}.

Lemma ScanImage_returns_witness :
  ∃ r, (ScanImage stuck "now" "app:latest" 602).2 = Some r.
Proof.
  apply (ScanImage_returns stuck "now" "app:latest").
  intros n. simpl. lia.
Defined.

Lemma ScanImage_completed_witness :
  ScanImage slowButDone "now" "app:latest" 5
  = ([StartScan "app:latest"; CheckProcess 4242; CheckProcess 4242;
      ReadResults; RemoveResults],
     Some (inl {| ImageName := "app:latest"; ScanTime := "now";
                  Vulnerabilities := [] |})).
Proof.
  apply (ScanImage_completed slowButDone "now" "app:latest" 4242 1 5 []).
  - reflexivity.
  - intros i Hi. exists "running". assert (i = 0%nat) as -> by lia.
    repeat split. vm_compute. discriminate.
  - reflexivity.
  - reflexivity.
  - lia.
Defined.

Lemma ScanImage_timed_out_witness :
  ScanImage stuck "now" "app:latest" 700
  = ([StartScan "app:latest"] ++ replicate 602 (CheckProcess 4242)
       ++ [KillProcess 4242],
     Some (inr (External "scan timed out after 10m0s"))).
Proof.
  apply (ScanImage_timed_out stuck "now" "app:latest" "running" 4242 601 700).
  - reflexivity.
  - intros i Hi. exists "running". repeat split.
    unfold stuck, timeout, Minute, Second. simpl. lia.
  - reflexivity.
  - reflexivity.
  - vm_compute. reflexivity.
  - lia.
Defined.

End ScanImageFacts.

(* ================================================================== *)
(** ** Properties of formatSize and StartBuild *)
(* ================================================================== *)

Module GcpMoreFacts.
Import GoStrings Gcp GcpMore.

Lemma int64_small (z : Z) : - 2 ^ 63 <= z < 2 ^ 63 → int64 z = z.
Proof. intros Hz. unfold int64. rewrite Z.mod_small; lia. Qed.

Lemma pow_unit_succ (e : nat) :
  1024 ^ (Z.of_nat (S e) + 1) = 1024 ^ (Z.of_nat e + 1) * 1024.
Proof.
  replace (Z.of_nat (S e) + 1) with (Z.succ (Z.of_nat e + 1)) by lia.
  rewrite Z.pow_succ_r by lia. lia.
Qed.

(** The loop keeps [div] a power of 1024 and [n] the quotient of the
    size by it, and stops with the size between [div] and
    [1024 * div]. *)
Lemma unitLoop_spec (size : Z) (fuel : nat) :
  size < 2 ^ 63 →
  ∀ n div exp,
    1 <= n → n = size / div → div = 1024 ^ (Z.of_nat exp + 1) →
    n < 1024 ^ (Z.of_nat fuel + 1) →
    ∃ div' exp',
      unitLoop fuel n div exp = Some (div', exp')
      ∧ div' = 1024 ^ (Z.of_nat exp' + 1)
      ∧ div' <= size < 1024 * div'.
Proof.
  intros Hsize. induction fuel as [|fuel IH]; intros n div exp Hn Hq Hdiv Hfuel.
  - assert (n < 1024) by (simpl in Hfuel; lia).
    simpl. unfold unit. destruct (n >=? 1024) eqn:E.
    { apply Z.geb_le in E. lia. }
    assert (0 < div) by (subst div; apply Z.pow_pos_nonneg; lia).
    exists div, exp. split; [done|]. split; [done|].
    pose proof (Z.div_mod size div ltac:(lia)).
    pose proof (Z.mod_pos_bound size div ltac:(lia)). nia.
  - assert (0 < div) by (subst div; apply Z.pow_pos_nonneg; lia).
    pose proof (Z.div_mod size div ltac:(lia)) as Hdm.
    pose proof (Z.mod_pos_bound size div ltac:(lia)) as Hmb.
    simpl. unfold unit. destruct (n >=? 1024) eqn:E.
    + apply Z.geb_le in E.
      assert (div * 1024 <= size) by nia.
      rewrite int64_small by lia.
      rewrite Z.quot_div_nonneg by lia.
      apply IH.
      * apply Z.div_le_lower_bound; lia.
      * subst n. rewrite Z.div_div by lia. done.
      * rewrite pow_unit_succ. by subst div.
      * apply Z.div_lt_upper_bound; [lia|].
        rewrite pow_unit_succ in Hfuel. lia.
    + exists div, exp. split; [done|]. split; [done|].
      rewrite Z.geb_leb in E. apply Z.leb_gt in E. nia.
Qed.

(** X9. For every [int64] size [formatSize] returns: below 1024 the
    size in bytes, and from 1024 on a letter of [KMGTPE] found at an
    index of at most 5, with a divisor [1024 ^ (index + 1)] computed
    without overflow and such that the size lies between the divisor and
    1024 times the divisor; the index is never out of range.  These are
    bounds on the integers handed to [Sprintf]; the floating-point
    quotient and its rendering by [%.1f] are not part of the statement. *)
Theorem formatSize_total (size : Z) :
  - 2 ^ 63 <= size < 2 ^ 63 →
  (size < 1024 → formatSize size = Returns (Bytes size))
  ∧ (1024 <= size →
     ∃ div exp letter,
       formatSize size = Returns (Scaled size div letter)
       ∧ (exp ≤ 5)%nat
       ∧ String.get exp "KMGTPE" = Some letter
       ∧ div = 1024 ^ (Z.of_nat exp + 1)
       ∧ div <= size < 1024 * div).
Proof.
  intros Hrange. split.
  - intros Hsmall. unfold formatSize, unit.
    destruct (size <? 1024) eqn:E; [done|]. apply Z.ltb_ge in E. lia.
  - intros Hbig. unfold formatSize, unit.
    destruct (size <? 1024) eqn:E; [apply Z.ltb_lt in E; lia|].
    rewrite Z.quot_div_nonneg by lia.
    destruct (unitLoop_spec size 64 ltac:(lia) (size / 1024) 1024 0%nat)
      as (div & exp & Hloop & Hdiv & Hbounds).
    + apply Z.div_le_lower_bound; lia.
    + done.
    + done.
    + apply Z.div_lt_upper_bound; [lia|].
      assert (2 ^ 63 <= 1024 * 1024 ^ (Z.of_nat 64 + 1)) by (vm_compute; discriminate).
      lia.
    + rewrite Hloop.
      assert (exp ≤ 5)%nat as Hexp.
      { destruct (decide (exp ≤ 5)%nat) as [|Hgt]; [done|]. exfalso.
        assert (1024 ^ 7 <= 1024 ^ (Z.of_nat exp + 1))
          by (apply Z.pow_le_mono_r; lia).
        assert (2 ^ 63 < 1024 ^ 7) by (vm_compute; reflexivity). lia. }
      assert (∃ letter, String.get exp "KMGTPE" = Some letter) as [letter Hl].
      { do 6 (destruct exp as [|exp]; [eexists; reflexivity|]). lia. }
      rewrite Hl. exists div, exp, letter. done.
Qed.

Lemma formatSize_total_witness :
  formatSize 1023 = Returns (Bytes 1023)
  ∧ ∃ div exp letter,
      formatSize (2 ^ 63 - 1) = Returns (Scaled (2 ^ 63 - 1) div letter)
      ∧ (exp ≤ 5)%nat
      ∧ String.get exp "KMGTPE" = Some letter
      ∧ div = 1024 ^ (Z.of_nat exp + 1)
      ∧ div <= 2 ^ 63 - 1 < 1024 * div.
Proof.
  split.
  - apply (formatSize_total 1023); lia.
  - apply (formatSize_total (2 ^ 63 - 1)); lia.
Defined.

Section StartBuild.
Variable Parse : string → string.
Variable get : nat → Build + error.

Abbreviation build_loop := (StartBuild Parse None get).

(** A status that ends the loop of [StartBuild]. *)
Definition terminal (status : string) : bool :=
  String.eqb status "SUCCESS" || String.eqb status "FAILURE"
  || String.eqb status "TIMEOUT" || String.eqb status "CANCELLED".

(** The first [k] requests succeed with a status that does not end the
    loop. *)
Definition waiting (k : nat) : Prop :=
  ∀ i, (i < k)%nat →
    ∃ build, get i = inl build ∧ terminal (BuildStatus build) = false.

Lemma build_loop_S (fuel : nat) :
  build_loop (S fuel) = buildIteration Parse get (build_loop fuel).
Proof. reflexivity. Qed.

Lemma terminal_false (status : string) :
  terminal status = false →
  String.eqb status "SUCCESS" = false
  ∧ String.eqb status "FAILURE" || String.eqb status "TIMEOUT"
    || String.eqb status "CANCELLED" = false.
Proof.
  unfold terminal. destruct (String.eqb status "SUCCESS"),
    (String.eqb status "FAILURE"), (String.eqb status "TIMEOUT"),
    (String.eqb status "CANCELLED"); simpl; intros; split; congruence.
Qed.

Lemma build_loop_waiting (k : nat) :
  waiting k →
  build_loop k
  = {| samples := k;
       slept := 5 * Z.of_nat k;
       trace := flat_map (λ i, [Sample i; Sleep 5]) (seq 0 k);
       returned := None |}.
Proof.
  induction k as [|k IH]; intros Hw; [done|].
  rewrite build_loop_S, IH by (intros i Hi; apply Hw; lia).
  destruct (Hw k) as (build & Hget & Hterm); [lia|].
  apply terminal_false in Hterm as [Hs Hf].
  unfold buildIteration. cbn [samples slept trace returned].
  rewrite Hget, Hs, Hf, seq_S, flat_map_app. simpl flat_map.
  f_equal. lia.
Qed.

Lemma build_loop_returned (n k : nat) (r : StartedBuild + error) :
  returned (build_loop n) = Some r → (n ≤ k)%nat → build_loop k = build_loop n.
Proof.
  intros Hret Hle. induction Hle as [|k Hle IH]; [done|].
  rewrite build_loop_S, IH. unfold buildIteration. by rewrite Hret.
Qed.

(** X10. [StartBuild] returns at the first status among SUCCESS,
    FAILURE, TIMEOUT and CANCELLED, after one 5-second sleep per earlier
    request: on SUCCESS the result carries the id, status, times and log
    URL of the build; on the other three the error names the status. *)
Theorem StartBuild_terminal (k fuel : nat) (build : Build) :
  waiting k → get k = inl build → (k < fuel)%nat →
  (BuildStatus build = "SUCCESS" →
   returned (build_loop fuel)
   = Some (inl {| ResultID := Id build;
                  ResultStatus := "SUCCESS";
                  ResultStartTime := Parse (BuildStartTime build);
                  ResultEndTime := Parse (FinishTime build);
                  ResultLogs := LogUrl build |})
   ∧ slept (build_loop fuel) = 5 * Z.of_nat k)
  ∧ (BuildStatus build ∈ ["FAILURE"; "TIMEOUT"; "CANCELLED"] →
     returned (build_loop fuel)
     = Some (inr (External ("build failed with status: " +:+ BuildStatus build)))
     ∧ slept (build_loop fuel) = 5 * Z.of_nat k).
Proof.
  intros Hw Hget Hfuel.
  assert (∀ r, returned (build_loop (S k)) = Some r →
               slept (build_loop (S k)) = 5 * Z.of_nat k →
               returned (build_loop fuel) = Some r
               ∧ slept (build_loop fuel) = 5 * Z.of_nat k) as Hstable.
  { intros r Hr Hs.
    rewrite (build_loop_returned (S k) fuel r Hr) by lia. done. }
  split.
  - intros Hsucc. apply Hstable;
      rewrite build_loop_S, (build_loop_waiting k Hw);
      unfold buildIteration; cbn [samples slept trace returned];
      rewrite Hget, Hsucc; done.
  - intros Hfail. apply Hstable;
      rewrite build_loop_S, (build_loop_waiting k Hw);
      unfold buildIteration; cbn [samples slept trace returned];
      rewrite Hget;
      rewrite !elem_of_cons, elem_of_nil in Hfail;
      destruct Hfail as [->|[->|[->|[]]]]; done.
Qed.

(** X11. Any other status keeps [StartBuild] polling: when every
    request succeeds with a status outside the four, the loop has not
    returned after any number of iterations and has slept 5 seconds in
    each. *)
Theorem StartBuild_keeps_polling (fuel : nat) :
  (∀ k, waiting k) →
  returned (build_loop fuel) = None
  ∧ samples (build_loop fuel) = fuel
  ∧ slept (build_loop fuel) = 5 * Z.of_nat fuel.
Proof. intros Hw. by rewrite (build_loop_waiting fuel (Hw fuel)). Qed.
End StartBuild.

Definition working : Build := mkBuild "b-1" "WORKING" "" "" "https://logs/b-1".
Definition cancelled : Build :=
  mkBuild "b-1" "CANCELLED" "2024-01-01T00:00:00Z" "2024-01-01T00:01:00Z"
          "https://logs/b-1".
Definition succeeded : Build :=
  mkBuild "b-1" "SUCCESS" "2024-01-01T00:00:00Z" "2024-01-01T00:01:00Z"
          "https://logs/b-1".
Definition expired : Build := mkBuild "b-1" "EXPIRED" "" "" "https://logs/b-1".

Lemma StartBuild_terminal_witness :
  (returned (StartBuild id None
               (λ n, if (n <? 2)%nat then inl working else inl succeeded) 3)
   = Some (inl {| ResultID := "b-1"; ResultStatus := "SUCCESS";
                  ResultStartTime := "2024-01-01T00:00:00Z";
                  ResultEndTime := "2024-01-01T00:01:00Z";
                  ResultLogs := "https://logs/b-1" |})
   ∧ slept (StartBuild id None
              (λ n, if (n <? 2)%nat then inl working else inl succeeded) 3)
     = 5 * Z.of_nat 2)
  ∧ (returned (StartBuild id None
                 (λ n, if (n <? 2)%nat then inl working else inl cancelled) 3)
     = Some (inr (External "build failed with status: CANCELLED"))
     ∧ slept (StartBuild id None
                (λ n, if (n <? 2)%nat then inl working else inl cancelled) 3)
       = 5 * Z.of_nat 2).
Proof.
  split.
  - apply (proj1 (StartBuild_terminal id
             (λ n, if (n <? 2)%nat then inl working else inl succeeded)
             2 3 succeeded
             ltac:(intros i Hi; exists working;
                   destruct i as [|[|i]]; [done|done|lia])
             eq_refl ltac:(lia))).
    reflexivity.
  - apply (proj2 (StartBuild_terminal id
             (λ n, if (n <? 2)%nat then inl working else inl cancelled)
             2 3 cancelled
             ltac:(intros i Hi; exists working;
                   destruct i as [|[|i]]; [done|done|lia])
             eq_refl ltac:(lia))).
    simpl. do 2 apply list_elem_of_further. apply list_elem_of_here.
Defined.

Lemma StartBuild_keeps_polling_witness :
  returned (StartBuild id None (λ _, inl expired) 4) = None
  ∧ samples (StartBuild id None (λ _, inl expired) 4) = 4%nat
  ∧ slept (StartBuild id None (λ _, inl expired) 4) = 5 * Z.of_nat 4.
Proof.
  apply (StartBuild_keeps_polling id (λ _, inl expired) 4).
  intros k i Hi. exists expired. done.
Defined.

End GcpMoreFacts.

(* ================================================================== *)
(** ** Further properties of package gcp *)
(* ================================================================== *)

Module PipelineFacts.
Import GoStrings Gcp RetrieveFacts.

(** *** Cleanup *)

Definition contextKey (projectID buildID : string) : string * string :=
  (projectID +:+ "-docktor-builds", buildID +:+ "/context.tar.gz").

Lemma context_artifact_differ (bucket buildID : string) :
  artifact bucket buildID ≠ (bucket, buildID +:+ "/context.tar.gz").
Proof.
  unfold artifact. intros [=H]. revert H.
  induction buildID as [|c b IH]; simpl; [discriminate|]. intros [=]. done.
Qed.

(** X12. When the delete succeeds, [Cleanup] removes the context archive
    of the build and nothing else, the scan results of the build in the
    same bucket included; a second [Cleanup] then fails on the missing
    object; and a [Cleanup] that fails leaves the store as it was. *)
Theorem Cleanup_removes_archive_only
    (st : Storage) (projectID buildID : string) :
  (deleteFault st = None →
   is_Some (objects st !! contextKey projectID buildID) →
   (Cleanup st projectID buildID).1 = None
   ∧ objects (Cleanup st projectID buildID).2 !! contextKey projectID buildID
     = None
   ∧ (∀ key, key ≠ contextKey projectID buildID →
        objects (Cleanup st projectID buildID).2 !! key = objects st !! key)
   ∧ objects (Cleanup st projectID buildID).2
       !! artifact (projectID +:+ "-docktor-builds") buildID
     = objects st !! artifact (projectID +:+ "-docktor-builds") buildID
   ∧ Cleanup (Cleanup st projectID buildID).2 projectID buildID
     = (Some (Errorf "failed to delete build context" ErrObjectNotExist),
        (Cleanup st projectID buildID).2))
  ∧ (is_Some (Cleanup st projectID buildID).1 →
     (Cleanup st projectID buildID).2 = st).
Proof.
  unfold Cleanup. fold (contextKey projectID buildID). split.
  - intros Hfault [content Hobj]. rewrite Hfault, Hobj. simpl.
    rewrite lookup_delete_eq. repeat split.
    + intros key Hkey. by rewrite lookup_delete_ne.
    + rewrite lookup_delete_ne; [done|].
      intros H. symmetry in H.
      by apply (context_artifact_differ (projectID +:+ "-docktor-builds") buildID).
  - destruct (deleteFault st); [done|].
    destruct (objects st !! contextKey projectID buildID); [|done].
    simpl. intros [? [=]].
Qed.

Definition uploaded : Storage :=
  {| objects := {[ contextKey "p" "docktor-1" := [x1f; x8b];
                   artifact "p-docktor-builds" "docktor-1" := [x7b; x7d] ]};
     attrsFault := None; readerFault := None; readFault := None;
     deleteFault := None |}.

Definition readOnly : Storage :=
  {| objects := objects uploaded;
     attrsFault := None; readerFault := None; readFault := None;
     deleteFault := Some (External "403 Forbidden") |}.

Lemma Cleanup_removes_archive_only_witness :
  (Cleanup readOnly "p" "docktor-1").2 = readOnly
  ∧ (Cleanup uploaded "p" "docktor-1").1 = None
  ∧ objects (Cleanup uploaded "p" "docktor-1").2 !! contextKey "p" "docktor-1"
    = None
  ∧ (∀ key, key ≠ contextKey "p" "docktor-1" →
       objects (Cleanup uploaded "p" "docktor-1").2 !! key
       = objects uploaded !! key)
  ∧ objects (Cleanup uploaded "p" "docktor-1").2
      !! artifact ("p" +:+ "-docktor-builds") "docktor-1"
    = objects uploaded !! artifact ("p" +:+ "-docktor-builds") "docktor-1"
  ∧ Cleanup (Cleanup uploaded "p" "docktor-1").2 "p" "docktor-1"
    = (Some (Errorf "failed to delete build context" ErrObjectNotExist),
       (Cleanup uploaded "p" "docktor-1").2).
Proof.
  split.
  - apply (proj2 (Cleanup_removes_archive_only readOnly "p" "docktor-1")).
    eexists. reflexivity.
  - apply (proj1 (Cleanup_removes_archive_only uploaded "p" "docktor-1")).
    + reflexivity.
    + eexists. vm_compute. reflexivity.
Defined.

(** *** getScanResults and the files on disk *)

Section Run.
Variable Unmarshal : list byte → trivyOutput + error.
Variable generated : string.
Variables (st : Storage) (os : LocalOS).
Variables (bucketName buildID : string).
Variable disk : gmap string file.

Abbreviation retrieve :=
  (getScanResults Unmarshal generated st os bucketName buildID disk).

Ltac split_run :=
  unfold getScanResults, mbind, M_bind, mret, M_ret, bind, ret, check, try,
    Attrs, NewReader, ReadAll, MkdirAll, WriteFile, Create, Fprintf;
  fold (artifact bucketName buildID) (rawJSONPath buildID) (htmlPath buildID);
  repeat match goal with
         | |- context [match ?x with _ => _ end] =>
             lazymatch x with
             | attrsFault _ => destruct x eqn:?
             | readerFault _ => destruct x eqn:?
             | readFault _ => destruct x eqn:?
             | mkdirFault _ => destruct x eqn:?
             | writeFault _ => destruct x eqn:?
             | createFault _ => destruct x eqn:?
             | objects _ !! _ => destruct x eqn:?
             | Unmarshal _ => destruct x eqn:?
             end; simpl
         end.

(** The errors of the calls that fetch the artifact; they come before
    the first call that touches the local file system. *)
Definition whileFetching (err : error) : Prop :=
  ∃ prefix cause,
    err = Errorf prefix cause
    ∧ prefix ∈ [ "scan results file not found";
                 "failed to read scan results";
                 "failed to read scan results content" ].

(** X13. [getScanResults] writes to two paths only, the raw file and
    the report of the build: the content found at every other path is as
    before, in every run; and a run that fails while fetching the
    artifact, before [os.MkdirAll], leaves the whole disk as it was. *)
Theorem getScanResults_frame :
  (∀ path, path ≠ rawJSONPath buildID → path ≠ htmlPath buildID →
     retrieve.2 !! path = disk !! path)
  ∧ (∀ err, retrieve.1 = inr err → whileFetching err → retrieve.2 = disk).
Proof.
  split.
  - intros path Hraw Hhtml. split_run;
      rewrite ?lookup_insert_ne by done; try done.
    rewrite lookup_insert_eq. simpl. by rewrite !lookup_insert_ne by done.
  - intros err Hres (prefix & cause & -> & Hin). revert Hres.
    rewrite !elem_of_cons, elem_of_nil in Hin.
    split_run; rewrite ?lookup_insert_eq; simpl; intros Hres; simplify_eq;
      try done;
      destruct Hin as [Hp|[Hp|[Hp|[]]]]; discriminate.
Qed.

(** X14. A run of [getScanResults] that returns scan results has found
    the artifact and decoded it, with every call whose error the code
    looks at succeeding; the returned list is the flattened decoded
    artifact; the raw file holds the bytes of the artifact and the report
    file has been created.  (What the report file holds is not stated:
    the results of the [fmt.Fprintf] calls are dropped by the code.) *)
Theorem getScanResults_success (scanResults : ScanResults) :
  retrieve.1 = inl scanResults →
  ∃ content results,
    objects st !! artifact bucketName buildID = Some content
    ∧ Unmarshal content = inl results
    ∧ scanResults = convertResults results
    ∧ healthy st os ∧ createFault os = None
    ∧ retrieve.2 !! rawJSONPath buildID = Some (RawFile content)
    ∧ is_Some (retrieve.2 !! htmlPath buildID).
Proof.
  split_run; rewrite ?lookup_insert_eq; simpl; intros Hres; simplify_eq.
  eexists _, _. split; [reflexivity|]. split; [eassumption|].
  split; [reflexivity|]. split; [done|]. split; [done|]. split.
  - rewrite !lookup_insert_ne by apply raw_html_differ. apply lookup_insert_eq.
  - rewrite lookup_insert_eq. eauto.
Qed.
End Run.

Lemma getScanResults_frame_witness :
  (getScanResults decodeTwoTargets "now" garbageStore goodOS
     "p-docktor-builds" "docktor-1"
     {[ "docktor/docktor-0-raw.json" := RawFile [] ]}).2
    !! "docktor/docktor-0-raw.json"
  = ({[ "docktor/docktor-0-raw.json" := RawFile [] ]} : gmap string file)
      !! "docktor/docktor-0-raw.json"
  ∧ (getScanResults rejectAll "now" emptyStore goodOS
       "p-docktor-builds" "docktor-1"
       {[ "docktor/docktor-0-raw.json" := RawFile [] ]}).2
    = {[ "docktor/docktor-0-raw.json" := RawFile [] ]}.
Proof.
  split.
  { apply (proj1 (getScanResults_frame decodeTwoTargets "now" garbageStore goodOS
                    "p-docktor-builds" "docktor-1"
                    {[ "docktor/docktor-0-raw.json" := RawFile [] ]})
             "docktor/docktor-0-raw.json"); vm_compute; discriminate. }
  apply (proj2 (getScanResults_frame rejectAll "now" emptyStore goodOS
                  "p-docktor-builds" "docktor-1"
                  {[ "docktor/docktor-0-raw.json" := RawFile [] ]})
           (Errorf "scan results file not found" ErrObjectNotExist)).
  - vm_compute. reflexivity.
  - eexists _, _. split; [reflexivity|]. apply list_elem_of_here.
Defined.

Lemma getScanResults_success_witness :
  ∃ content results,
    objects garbageStore !! artifact "p-docktor-builds" "docktor-1" = Some content
    ∧ decodeTwoTargets content = inl results
    ∧ {| Vulnerabilities := [vulnA; vulnB; vulnC] |} = convertResults results
    ∧ healthy garbageStore goodOS ∧ createFault goodOS = None
    ∧ (getScanResults decodeTwoTargets "now" garbageStore goodOS
         "p-docktor-builds" "docktor-1" ∅).2 !! rawJSONPath "docktor-1"
      = Some (RawFile content)
    ∧ is_Some ((getScanResults decodeTwoTargets "now" garbageStore goodOS
                  "p-docktor-builds" "docktor-1" ∅).2 !! htmlPath "docktor-1").
Proof.
  apply (getScanResults_success decodeTwoTargets "now" garbageStore goodOS
           "p-docktor-builds" "docktor-1" ∅
           {| Vulnerabilities := [vulnA; vulnB; vulnC] |}).
  vm_compute. reflexivity.
Defined.

End PipelineFacts.

(* ================================================================== *)
(** ** The summary and the details of the HTML report agree *)
(* ================================================================== *)

Module ReportMore.
Import GoStrings Gcp ReportFacts.

(** The sum of the numbers on the summary cards of a document, and the
    number of its detail blocks. *)
Definition cardTotal (ws : list htmlWrite) : nat :=
  sum_list_with (λ w, match w with
                      | SeverityCard _ _ count => count
                      | _ => 0%nat
                      end) ws.

Definition blockCount (ws : list htmlWrite) : nat :=
  sum_list_with (λ w, match w with
                      | VulnOpen _ _ _ _ => 1%nat
                      | _ => 0%nat
                      end) ws.

Lemma cardTotal_app (a b : list htmlWrite) :
  cardTotal (a ++ b) = (cardTotal a + cardTotal b)%nat.
Proof. apply sum_list_with_app. Qed.

Lemma blockCount_app (a b : list htmlWrite) :
  blockCount (a ++ b) = (blockCount a + blockCount b)%nat.
Proof. apply sum_list_with_app. Qed.

Lemma counts_of_blocks (s : string) (l : list Vulnerability) :
  cardTotal (flat_map (writeVulnerability s) l) = 0%nat
  ∧ blockCount (flat_map (writeVulnerability s) l) = length l.
Proof.
  induction l as [|v l [IHc IHb]]; [done|]. cbn [flat_map].
  rewrite cardTotal_app, blockCount_app, IHc, IHb.
  unfold writeVulnerability.
  destruct (negb (String.eqb (FixedVersion v) "")); done.
Qed.

Lemma counts_of_card (s : string) (vulns : list Vulnerability) :
  cardTotal (match withSeverity s vulns with
             | [] => []
             | l => [SeverityCard (ToLower s) s (length l)]
             end)
  = length (withSeverity s vulns)
  ∧ blockCount (match withSeverity s vulns with
                | [] => []
                | l => [SeverityCard (ToLower s) s (length l)]
                end)
    = 0%nat.
Proof. destruct (withSeverity s vulns); simpl; split; lia. Qed.

(** The displayed entries are those of the four displayed severities. *)
Lemma length_displayed (vulns : list Vulnerability) :
  length (filter (λ v, Severity v ∈ severityOrder) vulns)
  = (length (withSeverity "CRITICAL" vulns) + length (withSeverity "HIGH" vulns)
     + length (withSeverity "MEDIUM" vulns)
     + length (withSeverity "LOW" vulns))%nat.
Proof.
  unfold withSeverity, severityOrder.
  induction vulns as [|v vulns IH]; [done|].
  rewrite !filter_cons.
  destruct (decide (Severity v ∈ ["CRITICAL"; "HIGH"; "MEDIUM"; "LOW"]))
    as [Hin|Hout].
  - rewrite !elem_of_cons, elem_of_nil in Hin. simpl length. rewrite IH.
    destruct Hin as [E|[E|[E|[E|[]]]]]; rewrite E;
      repeat case_decide; try discriminate; try congruence; simpl; lia.
  - rewrite !elem_of_cons, elem_of_nil in Hout. rewrite IH.
    repeat case_decide; tauto.
Qed.

(** X15. In every report document the numbers on the summary cards add
    up to the number of detail blocks, and both equal the number of
    entries whose severity is CRITICAL, HIGH, MEDIUM or LOW. *)
Theorem summary_matches_details
    (buildID generated : string) (vulns : list Vulnerability) :
  cardTotal (writeReport buildID generated vulns)
  = blockCount (writeReport buildID generated vulns)
  ∧ blockCount (writeReport buildID generated vulns)
    = length (filter (λ v, Severity v ∈ severityOrder) vulns).
Proof.
  assert (cardTotal (writeReport buildID generated vulns)
          = length (filter (λ v, Severity v ∈ severityOrder) vulns)
          ∧ blockCount (writeReport buildID generated vulns)
            = length (filter (λ v, Severity v ∈ severityOrder) vulns))
    as [Hc Hb]; [|by rewrite Hc, Hb].
  unfold writeReport. rewrite writeSummary_cards, writeDetails_details.
  rewrite !cardTotal_app, !blockCount_app, length_displayed.
  unfold cards, details, severityOrder. cbn [flat_map].
  rewrite !cardTotal_app, !blockCount_app.
  pose proof (counts_of_card "CRITICAL" vulns) as [C1 B1].
  pose proof (counts_of_card "HIGH" vulns) as [C2 B2].
  pose proof (counts_of_card "MEDIUM" vulns) as [C3 B3].
  pose proof (counts_of_card "LOW" vulns) as [C4 B4].
  pose proof (counts_of_blocks "CRITICAL" (withSeverity "CRITICAL" vulns)) as [D1 E1].
  pose proof (counts_of_blocks "HIGH" (withSeverity "HIGH" vulns)) as [D2 E2].
  pose proof (counts_of_blocks "MEDIUM" (withSeverity "MEDIUM" vulns)) as [D3 E3].
  pose proof (counts_of_blocks "LOW" (withSeverity "LOW" vulns)) as [D4 E4].
  rewrite C1, C2, C3, C4, B1, B2, B3, B4, D1, D2, D3, D4, E1, E2, E3, E4.
  simpl. lia.
Qed.

End ReportMore.

(* ================================================================== *)
(** ** BuildAndScanImage from the status requests to the results *)
(* ================================================================== *)

Module BuildFacts.
Import GoStrings Gcp RetrieveFacts.

(** The steps before the loop succeed: the bucket exists or is created,
    the context is uploaded, the Dockerfile argument is found and the
    build is created. *)
Definition ready (svc : BuildService) : Prop :=
  (bucketAttrs svc = None ∨ bucketCreate svc = None)
  ∧ uploadContext svc = None
  ∧ (∃ dockerfileArg, dockerfileRel svc = inl dockerfileArg)
  ∧ createBuild svc = None.

Section Build.
Variable Unmarshal : list byte → trivyOutput + error.
Variable generated : string.
Variable buildTimes : Operation → string * string.
Variables (svc : BuildService) (st : Storage) (os : LocalOS).
Variables (projectID buildID : string).
Variable disk : gmap string file.

Abbreviation build :=
  (BuildAndScanImage Unmarshal generated buildTimes svc st os projectID buildID
     disk).

Abbreviation finish :=
  (completed Unmarshal generated buildTimes st os projectID buildID disk).

Lemma build_ready (fuel : nat) :
  ready svc →
  build fuel
  = returned (run (operationGet svc) (λ err, (inr err, disk)) finish fuel).
Proof.
  intros (Hbucket & Hup & [arg Hrel] & Hcreate). unfold BuildAndScanImage.
  assert (match bucketAttrs svc with
          | Some _ => bucketCreate svc
          | None => None
          end = None) as ->.
  { destruct Hbucket as [->| ->]; [done|]. by destruct (bucketAttrs svc). }
  by rewrite Hup, Hrel, Hcreate.
Qed.

(** What the loop returns once request [k] has ended it with [r]. *)
Lemma build_returns (k fuel : nat) (r : outcome) :
  ready svc →
  returned (run (operationGet svc) (λ err, (inr err, disk)) finish (S k))
  = Some r →
  (k < fuel)%nat →
  build fuel = Some r.
Proof.
  intros Hready Hr Hfuel. rewrite (build_ready fuel Hready).
  pose proof (PollerFacts.loop_returned _ _ _ (S k) fuel r Hr ltac:(lia)) as Heq.
  exact (eq_trans (f_equal returned Heq) Hr).
Qed.

(** X16. A status request that fails ends [BuildAndScanImage] at once:
    after [k] requests that found the build unfinished, a failure of
    request [k] is returned as the error of the function, wrapped, with
    no further request and with the files on disk untouched. *)
Theorem status_failure_aborts (k fuel : nat) (err : error) :
  ready svc →
  PollerFacts.pending (operationGet svc) k →
  operationGet svc k = inr err →
  (k < fuel)%nat →
  build fuel = Some (inr (Errorf "failed to get operation status" err), disk)
  ∧ samples (waitForBuild Unmarshal generated buildTimes svc st os
               projectID buildID disk fuel) = S k.
Proof.
  intros Hready Hp Hget Hfuel.
  assert (run (operationGet svc) (λ e, (inr e, disk)) finish (S k)
          = {| samples := S k; slept := 5 * Z.of_nat k;
               trace := flat_map (λ i, [Sample i; Sleep 5]) (seq 0 k)
                        ++ [Sample k];
               returned :=
                 Some (inr (Errorf "failed to get operation status" err), disk) |})
    as Hk.
  { rewrite PollerFacts.loop_S, (PollerFacts.loop_pending _ _ _ k Hp).
    unfold iteration, PollerFacts.polling. cbn [samples slept trace returned].
    by rewrite Hget. }
  split.
  - apply (build_returns k fuel); [done| |done]. exact (f_equal returned Hk).
  - unfold waitForBuild.
    pose proof (PollerFacts.loop_returned (operationGet svc)
                  (λ e, (inr e, disk)) finish (S k) fuel
                  (inr (Errorf "failed to get operation status" err), disk)
                  (f_equal returned Hk) ltac:(lia)) as Heq.
    exact (eq_trans (f_equal samples Heq) (f_equal samples Hk)).
Qed.

(** X17. When request [k] is the first to report [done = true], the
    function returns what the retrieval of the results gives: with the
    artifact missing, the error chain "build completed but failed to get
    scan results: scan results file not found"; with an artifact that
    decodes and no failing call, the result with status SUCCESS, the id
    of the build and the flattened vulnerabilities, and the raw file and
    the report on disk. *)
Theorem done_then_results
    (k fuel : nat) (op : Operation) (content : list byte) (results : trivyOutput) :
  ready svc →
  PollerFacts.pending (operationGet svc) k →
  operationGet svc k = inl op → Done op = true →
  (k < fuel)%nat →
  (objects st !! artifact (bucketName projectID) buildID = None →
   attrsFault st = None →
   build fuel
   = Some (inr (Errorf "build completed but failed to get scan results"
                  (Errorf "scan results file not found" ErrObjectNotExist)),
           disk))
  ∧ (objects st !! artifact (bucketName projectID) buildID = Some content →
     healthy st os → createFault os = None →
     Unmarshal content = inl results →
     build fuel
     = Some (inl {| ID := buildID;
                    Status := "SUCCESS";
                    StartTime := (buildTimes op).1;
                    EndTime := (buildTimes op).2;
                    Logs := "https://console.cloud.google.com/cloud-build/builds/"
                            +:+ buildID +:+ "?project=" +:+ projectID;
                    Scan := convertResults results |},
             <[htmlPath buildID :=
                 HtmlFile (writeReport buildID generated
                             (Vulnerabilities (convertResults results)))]>
               (<[rawJSONPath buildID := RawFile content]> disk))).
Proof.
  intros Hready Hp Hget Hdone Hfuel.
  pose proof (PollerFacts.loop_done (operationGet svc) (λ e, (inr e, disk))
                finish k op Hp Hget Hdone) as Hk.
  assert (build fuel = Some (finish op)) as ->.
  { apply (build_returns k fuel); [done| |done]. exact (f_equal returned Hk). }
  split.
  - intros Hnone Hattrs. f_equal. unfold completed.
    destruct (retrieve_missing Unmarshal generated st os (bucketName projectID)
                buildID disk Hnone) as [cause Hrun].
    rewrite Hrun.
    assert (cause = ErrObjectNotExist) as ->; [|done].
    revert Hrun. unfold getScanResults, mbind, M_bind, bind, check, Attrs.
    fold (artifact (bucketName projectID) buildID). rewrite Hattrs, Hnone.
    by intros [=].
  - intros Hobj Hok Hcreate Hdec. f_equal. unfold completed.
    rewrite (retrieve_healthy Unmarshal generated st os (bucketName projectID)
               buildID disk content Hobj Hok). simpl.
    by rewrite Hdec, Hcreate.
Qed.
End Build.

Definition flaky (n : nat) : Operation + error :=
  if (n <? 1)%nat then inl PollerFacts.unfinished
  else inr (External "googleapi: Error 503").

Lemma ready_service (get : nat → Operation + error) :
  ready (PollerFacts.service get).
Proof. repeat split; eauto. Qed.

Lemma status_failure_aborts_witness :
  BuildAndScanImage PollerFacts.acceptEmpty "now" PollerFacts.noTimes
    (PollerFacts.service flaky) PollerFacts.scannedStore goodOS "p" "docktor-1" ∅ 5
  = Some (inr (Errorf "failed to get operation status"
                 (External "googleapi: Error 503")), ∅)
  ∧ samples (waitForBuild PollerFacts.acceptEmpty "now" PollerFacts.noTimes
               (PollerFacts.service flaky) PollerFacts.scannedStore goodOS
               "p" "docktor-1" ∅ 5) = 2%nat.
Proof.
  apply (status_failure_aborts PollerFacts.acceptEmpty "now" PollerFacts.noTimes
           (PollerFacts.service flaky) PollerFacts.scannedStore goodOS
           "p" "docktor-1" ∅ 1 5 (External "googleapi: Error 503")).
  - apply ready_service.
  - intros i Hi. exists PollerFacts.unfinished.
    assert (i = 0%nat) as -> by lia. done.
  - reflexivity.
  - lia.
Defined.

Lemma done_then_results_witness :
  BuildAndScanImage PollerFacts.acceptEmpty "now" PollerFacts.noTimes
    (PollerFacts.service PollerFacts.doneAtThird) emptyStore goodOS
    "p" "docktor-1" ∅ 4
  = Some (inr (Errorf "build completed but failed to get scan results"
                 (Errorf "scan results file not found" ErrObjectNotExist)), ∅)
  ∧ BuildAndScanImage PollerFacts.acceptEmpty "now" PollerFacts.noTimes
      (PollerFacts.service PollerFacts.doneAtThird) PollerFacts.scannedStore
      goodOS "p" "docktor-1" ∅ 4
    = Some (inl {| ID := "docktor-1"; Status := "SUCCESS";
                   StartTime := ""; EndTime := "";
                   Logs := "https://console.cloud.google.com/cloud-build/builds/"
                           +:+ "docktor-1" +:+ "?project=" +:+ "p";
                   Scan := convertResults {| Results := [] |} |},
            <[htmlPath "docktor-1" :=
                HtmlFile (writeReport "docktor-1" "now"
                            (Vulnerabilities (convertResults {| Results := [] |})))]>
              (<[rawJSONPath "docktor-1" := RawFile [x7b; x7d]]> ∅)).
Proof.
  assert (PollerFacts.pending PollerFacts.doneAtThird 2) as Hp.
  { intros i Hi. exists PollerFacts.unfinished.
    destruct i as [|[|i]]; [done|done|lia]. }
  split.
  - apply (proj1 (done_then_results PollerFacts.acceptEmpty "now"
                    PollerFacts.noTimes
                    (PollerFacts.service PollerFacts.doneAtThird) emptyStore
                    goodOS "p" "docktor-1" ∅ 2 4 PollerFacts.finished []
                    {| Results := [] |} (ready_service _) Hp
                    eq_refl eq_refl ltac:(lia))).
    + reflexivity.
    + reflexivity.
  - apply (proj2 (done_then_results PollerFacts.acceptEmpty "now"
                    PollerFacts.noTimes
                    (PollerFacts.service PollerFacts.doneAtThird)
                    PollerFacts.scannedStore goodOS "p" "docktor-1" ∅ 2 4
                    PollerFacts.finished [x7b; x7d]
                    {| Results := [] |} (ready_service _) Hp
                    eq_refl eq_refl ltac:(lia))).
    + vm_compute. reflexivity.
    + repeat split.
    + reflexivity.
    + reflexivity.
Defined.

End BuildFacts.

(* ================================================================== *)
(** ** Ignore patterns and the archive *)
(* ================================================================== *)

Module ArchiveMore.
Import GoStrings Gcp ArchiveFacts.

Lemma sublist_flat_map {A B} (f g : A → list B) (l : list A) :
  Forall (λ x, sublist (f x) (g x)) l → sublist (flat_map f l) (flat_map g l).
Proof.
  induction 1 as [|x l Hx _ IH]; simpl; [constructor|]. by apply sublist_app.
Qed.

(** One loaded rule set excludes at least what another does. *)
Definition stricter (g' g : option (string → bool)) : Prop :=
  ∀ path, shouldExclude g path = true → shouldExclude g' path = true.

Lemma walk_stricter (g' g : option (string → bool)) (n : node) :
  stricter g' g → ∀ dir, sublist (walk g' dir n) (walk g dir n).
Proof.
  intros Hle. induction n as [name|name entries IH] using node_ind;
    intros dir; simpl.
  - destruct (shouldExclude g' (relPath dir name)) eqn:E'; [apply sublist_nil_l|].
    destruct (shouldExclude g (relPath dir name)) eqn:E; [|done].
    apply Hle in E. congruence.
  - destruct (shouldExclude g' (relPath dir name)) eqn:E'; [apply sublist_nil_l|].
    destruct (shouldExclude g (relPath dir name)) eqn:E.
    { apply Hle in E. congruence. }
    constructor. apply sublist_flat_map.
    eapply Forall_impl; [exact IH|]. intros x Hx. apply Hx.
Qed.

(** X18. Ignore patterns only take entries away: with a rule set that
    matches every path another one matches, the archive is a subsequence
    of the archive built with the other; and every archive built with
    patterns is a subsequence of the one built without a [.gitignore]. *)
Theorem patterns_only_remove
    (MatchesPath MatchesPath' : string → bool) (root : node) :
  ((∀ path, MatchesPath path = true → MatchesPath' path = true) →
   sublist (archiveEntries (Some MatchesPath') root)
           (archiveEntries (Some MatchesPath) root))
  ∧ sublist (archiveEntries (Some MatchesPath) root) (archiveEntries None root).
Proof.
  assert (∀ g' g, stricter g' g →
            sublist (archiveEntries g' root) (archiveEntries g root)) as Hroot.
  { intros g' g Hle. destruct root as [name|name entries]; simpl; [done|].
    apply sublist_flat_map, Forall_forall. intros n _.
    by apply walk_stricter. }
  split.
  - intros Hmore. apply Hroot. intros path. unfold shouldExclude.
    destruct (Contains path "/node_modules/" || HasSuffix path "/node_modules");
      [done|].
    destruct (HasPrefix (Base path) "."); [done|].
    destruct (String.eqb (Base path) ".git"); [done|]. apply Hmore.
  - apply Hroot. intros path. unfold shouldExclude.
    destruct (Contains path "/node_modules/" || HasSuffix path "/node_modules");
      [done|].
    destruct (HasPrefix (Base path) "."); [done|].
    destruct (String.eqb (Base path) ".git"); done.
Qed.

Definition ignoreBuild (path : string) : bool := HasPrefix path "build/".
Definition ignoreBuildAndLogs (path : string) : bool :=
  HasPrefix path "build/" || HasSuffix path ".log".

Definition webProject : node :=
  Dir "." [ File "app.js"; File "debug.log";
            Dir "build" [ File "out.js" ]; Dir "src" [ File "main.go" ] ].

Lemma patterns_only_remove_witness :
  sublist (archiveEntries (Some ignoreBuildAndLogs) webProject)
          (archiveEntries (Some ignoreBuild) webProject).
Proof.
  apply (proj1 (patterns_only_remove ignoreBuild ignoreBuildAndLogs webProject)).
  intros path Hm. unfold ignoreBuildAndLogs. unfold ignoreBuild in Hm.
  rewrite Hm. reflexivity.
Defined.

(** A tree whose entries all have names: not empty, without a slash. *)
#[local] Unset Elimination Schemes.
Inductive wellNamed : node → Prop :=
| wellNamed_file (name : string) :
    entryName name → wellNamed (File name)
| wellNamed_dir (name : string) (entries : list node) :
    entryName name → Forall wellNamed entries → wellNamed (Dir name entries).
#[local] Set Elimination Schemes.

Definition nodeName (n : node) : string :=
  match n with
  | File name => name
  | Dir name _ => name
  end.

(** [path] lies below the directory [dir]. *)
Definition below (dir path : string) : Prop :=
  HasPrefix path (dir +:+ "/") = true.

Lemma prefix_nil (s : string) : String.prefix "" s = true.
Proof. by destruct s. Qed.

Lemma prefix_cons (c d : ascii) (a b : string) :
  String.prefix (String c a) (String d b) = true
  ↔ c = d ∧ String.prefix a b = true.
Proof.
  simpl. destruct (Ascii.ascii_dec c d) as [->|Hne]; [tauto|].
  split; [done|]. intros [? _]. done.
Qed.

Lemma prefix_append (a b : string) : String.prefix a (a +:+ b) = true.
Proof.
  induction a as [|c a IH]; [apply prefix_nil|].
  rewrite append_cons. by apply prefix_cons.
Qed.

Lemma prefix_trans (a b c : string) :
  String.prefix a b = true → String.prefix b c = true →
  String.prefix a c = true.
Proof.
  revert b c. induction a as [|x a IH]; intros b c Hab Hbc;
    [apply prefix_nil|].
  destruct b as [|y b]; [done|]. destruct c as [|z c]; [done|].
  apply prefix_cons in Hab as [-> Hab]. apply prefix_cons in Hbc as [-> Hbc].
  apply prefix_cons. split; [done|]. by apply (IH b c).
Qed.

Lemma append_assoc (a b c : string) : (a +:+ b) +:+ c = a +:+ (b +:+ c).
Proof.
  induction a as [|x a IH]; [done|]. by rewrite !append_cons, IH.
Qed.

Lemma relPath_nonempty (dir name : string) :
  name ≠ "" → relPath dir name ≠ "".
Proof.
  intros Hname. unfold relPath.
  destruct (String.eqb_spec dir "") as [->|Hdir]; [done|]. by destruct dir.
Qed.

Lemma relPath_below (dir name : string) :
  dir ≠ "" → relPath dir name = dir +:+ "/" +:+ name.
Proof.
  intros Hdir. unfold relPath. by destruct (String.eqb_spec dir "").
Qed.

Lemma below_child (dir name : string) :
  dir ≠ "" → below dir (relPath dir name).
Proof.
  intros Hdir. unfold below, HasPrefix. rewrite (relPath_below dir name Hdir).
  rewrite <- append_assoc. apply prefix_append.
Qed.

Lemma below_trans (dir name path : string) :
  dir ≠ "" → below (relPath dir name) path → below dir path.
Proof.
  unfold below, HasPrefix. intros Hdir Hpath.
  apply (prefix_trans _ (relPath dir name +:+ "/")); [|done].
  rewrite (relPath_below dir name Hdir), <- append_assoc, append_assoc.
  apply prefix_append.
Qed.

Lemma walk_below (gitignore : option (string → bool)) (n : node) :
  wellNamed n →
  ∀ dir, Forall (λ e, e = relPath dir (nodeName n)
                      ∨ below (relPath dir (nodeName n)) e)
                (walk gitignore dir n).
Proof.
  induction n as [name|name entries IH] using node_ind;
    intros Hwn dir; simpl.
  - destruct (shouldExclude gitignore (relPath dir name)); repeat constructor.
  - inversion Hwn as [|? ? [Hname _] Hentries]; subst.
    destruct (shouldExclude gitignore (relPath dir name)); [constructor|].
    constructor; [by left|].
    apply Forall_flat_map, Forall_forall. intros c Hc.
    rewrite Forall_forall in IH, Hentries.
    pose proof (relPath_nonempty dir name Hname) as Hrel.
    eapply Forall_impl; [apply (IH c Hc (Hentries c Hc))|].
    intros e [->|He]; right.
    + by apply below_child.
    + by apply (below_trans _ (nodeName c)).
Qed.

(** X25. In the archive of a tree with proper names a directory comes
    before its content: the headers written for a directory that is not
    excluded are its own relative path followed only by paths that extend
    that path by a slash and more. *)
Theorem directory_precedes_content
    (gitignore : option (string → bool)) (dir name : string)
    (entries : list node) :
  wellNamed (Dir name entries) →
  shouldExclude gitignore (relPath dir name) = false →
  ∃ content,
    walk gitignore dir (Dir name entries) = relPath dir name :: content
    ∧ Forall (below (relPath dir name)) content.
Proof.
  intros Hwn Hkeep.
  pose proof (walk_below gitignore (Dir name entries) Hwn dir) as Hall.
  inversion Hwn as [|? ? [Hname _] Hentries]; subst.
  simpl in *. rewrite Hkeep in *.
  eexists. split; [done|].
  apply Forall_flat_map, Forall_forall. intros c Hc.
  rewrite Forall_forall in Hentries.
  pose proof (relPath_nonempty dir name Hname) as Hrel.
  eapply Forall_impl; [apply (walk_below gitignore c (Hentries c Hc))|].
  intros e [->|He].
  - by apply below_child.
  - by apply (below_trans _ (nodeName c)).
Qed.

Lemma entryName_literal (name : string) :
  name ≠ "" → slashFree name = true → entryName name.
Proof. by split. Qed.

Lemma directory_precedes_content_witness :
  ∃ content,
    walk None "" (Dir "src" [File "main.go"; Dir "pkg" [File "a.go"]])
    = relPath "" "src" :: content
    ∧ Forall (below (relPath "" "src")) content.
Proof.
  apply (directory_precedes_content None "" "src"
           [File "main.go"; Dir "pkg" [File "a.go"]]).
  - repeat (constructor || (apply entryName_literal; [discriminate|reflexivity])).
  - vm_compute. reflexivity.
Defined.

End ArchiveMore.

(* ================================================================== *)
(** ** Properties of the configuration and of NewClient *)
(* ================================================================== *)

Module ConfigFacts.
Import Config.

(** A configuration file that does not stop [LoadConfig]: it is missing
    or it merges. *)
Definition usable (f : ConfigFile) : Prop :=
  missing f = true ∨ merge f = None.

Lemma loadEnvFile_usable (f : ConfigFile) : loadEnvFile f = None ↔ usable f.
Proof.
  unfold loadEnvFile, usable.
  destruct (missing f), (merge f); intuition congruence.
Qed.

Lemma loadYamlFile_usable (f : ConfigFile) : loadYamlFile f = None ↔ usable f.
Proof.
  unfold loadYamlFile, usable.
  destruct (missing f), (merge f); intuition congruence.
Qed.

(** X19. [LoadConfig] returns a configuration exactly when each of the
    three files is missing or merges, the home directory is found, the
    settings decode, the project id is not empty and a service account,
    a key path or [GOOGLE_APPLICATION_CREDENTIALS] is set; the
    configuration returned is the decoded one.  A missing file is never
    an error. *)
Theorem LoadConfig_accepts (src : Sources) (config : Config) :
  LoadConfig src = inl config
  ↔ usable (envFile src) ∧ usable (localYaml src)
    ∧ (∃ homeDir, UserHomeDir src = inl homeDir ∧ usable (homeYaml src homeDir))
    ∧ Unmarshal src = inl config
    ∧ GCPProjectID config ≠ ""
    ∧ (GCPServiceAccount config ≠ "" ∨ GCPServiceKeyPath config ≠ ""
       ∨ appCredentials src ≠ "").
Proof.
  unfold LoadConfig.
  rewrite <- loadEnvFile_usable, <- loadYamlFile_usable.
  destruct (loadEnvFile (envFile src)); [intuition congruence|].
  destruct (loadYamlFile (localYaml src)); [intuition congruence|].
  destruct (UserHomeDir src) as [homeDir|e];
    [|split; [done|intros (_ & _ & (h & [=] & _) & _)]].
  pose proof (loadYamlFile_usable (homeYaml src homeDir)) as Hhome.
  destruct (loadYamlFile (homeYaml src homeDir)) eqn:Hy.
  { split; [done|]. intros (_ & _ & (h & [=<-] & Hu) & _).
    apply Hhome in Hu. done. }
  destruct (Unmarshal src) as [c|e]; [|intuition congruence].
  destruct (String.eqb_spec (GCPProjectID c) "") as [Hp|Hp].
  { split; [done|]. intros (_ & _ & _ & [=<-] & Hne & _). done. }
  destruct (String.eqb_spec (GCPServiceAccount c) "") as [Hs|Hs];
    destruct (String.eqb_spec (GCPServiceKeyPath c) "") as [Hk|Hk];
    destruct (String.eqb_spec (appCredentials src) "") as [Ha|Ha]; simpl;
    split; try done;
    try (intros [=<-]; repeat split; try done; try apply Hhome; eauto;
         try (eexists; split; [done|]; by apply Hhome); tauto);
    try (intros (_ & _ & _ & [=<-] & _); done);
    try (intros (_ & _ & _ & [=<-] & _ & [?|[?|?]]); done).
Qed.

(** X20. A client returned by [NewClient] carries the project id it was
    given; its services were created with the credentials file exactly
    when both the service account and the key path are set, and then the
    key file was read and held JSON; with either of them empty no
    credentials option is passed and the key file is not looked at. *)
Theorem NewClient_credentials
    (pf : Platform) (project serviceAccount serviceKeyPath : string)
    (client : Client) :
  NewClient pf project serviceAccount serviceKeyPath = inl client →
  projectID client = project
  ∧ (serviceAccount ≠ "" ∧ serviceKeyPath ≠ "" →
     options client = [WithCredentialsFile serviceKeyPath]
     ∧ ∃ keyFile, ReadFile pf serviceKeyPath = inl keyFile
                  ∧ validJSON pf keyFile = None)
  ∧ (serviceAccount = "" ∨ serviceKeyPath = "" → options client = []).
Proof.
  unfold NewClient.
  destruct (String.eqb_spec serviceAccount "") as [Hs|Hs];
    destruct (String.eqb_spec serviceKeyPath "") as [Hk|Hk]; simpl.
  4: { destruct (ReadFile pf serviceKeyPath) as [keyFile|e] eqn:Hread; [|done].
       destruct (validJSON pf keyFile) eqn:Hjson; [done|].
       destruct (NewService pf _); [done|]. destruct (NewStorage pf _); [done|].
       intros [=<-]. simpl. repeat split; [eauto|tauto]. }
  all: destruct (NewService pf []); [done|]; destruct (NewStorage pf []); [done|];
    intros [=<-]; simpl; repeat split; tauto.
Qed.

Definition onlyAccount : Config :=
  {| GCPProjectID := "my-project"; GCPRegion := "global";
     GCPServiceAccount := "ci@my-project.iam.gserviceaccount.com";
     GCPServiceKeyPath := ""; Severity := ""; Timeout := 0 |}.

Definition absent : ConfigFile := {| missing := true; merge := None |}.

Definition noFiles : Sources :=
  {| envFile := absent; localYaml := absent; UserHomeDir := inl "/home/u";
     homeYaml := λ _, absent; Unmarshal := inl onlyAccount;
     appCredentials := "" |}.

Definition cloud : Platform :=
  {| ReadFile := λ _, inr (External "open : no such file or directory");
     validJSON := λ _, None;
     NewService := λ _, None;
     NewStorage := λ _, None |}.

Lemma LoadConfig_accepts_witness : LoadConfig noFiles = inl onlyAccount.
Proof.
  apply (LoadConfig_accepts noFiles onlyAccount).
  repeat split; try (left; reflexivity); try discriminate.
  - exists "/home/u". split; [reflexivity|left; reflexivity].
  - left. discriminate.
Defined.

Lemma NewClient_credentials_witness :
  ∃ client,
    NewClient cloud "my-project" (GCPServiceAccount onlyAccount)
      (GCPServiceKeyPath onlyAccount) = inl client
    ∧ projectID client = "my-project" ∧ options client = [].
Proof.
  exists {| projectID := "my-project"; options := [] |}.
  split; [reflexivity|].
  pose proof (NewClient_credentials cloud "my-project"
                (GCPServiceAccount onlyAccount) (GCPServiceKeyPath onlyAccount)
                {| projectID := "my-project"; options := [] |} eq_refl)
    as (Hp & _ & Hnone).
  split; [exact Hp|]. apply Hnone. right. reflexivity.
Defined.

End ConfigFacts.

(* ================================================================== *)
(** ** Properties of the commands *)
(* ================================================================== *)

Module CmdMoreFacts.
Import GoStrings CmdMore.

(** The value a file assigns to a variable: what follows the prefix on
    the last line that starts with it. *)
Definition assigned (prefix : string) (lines : list string) : option string :=
  last ((λ line, TrimPrefix line prefix)
          <$> filter (λ line, HasPrefix line prefix = true) lines).

Lemma assigned_snoc (prefix : string) (lines : list string) (line : string) :
  assigned prefix (lines ++ [line])
  = if HasPrefix line prefix then Some (TrimPrefix line prefix)
    else assigned prefix lines.
Proof.
  unfold assigned. rewrite filter_app, filter_cons, filter_nil.
  destruct (HasPrefix line prefix) eqn:E.
  - rewrite decide_True by done. rewrite fmap_app. simpl. apply last_snoc.
  - rewrite decide_False by discriminate. by rewrite app_nil_r.
Qed.

(** Scanning the lines sets the token and the organization to their
    last assignments and leaves the other fields alone. *)
Lemma scan_lines (config : FlyConfig) (lines : list string) :
  foldl scanLine config lines
  = {| APIToken := default (APIToken config) (assigned "FLY_API_TOKEN=" lines);
       Organization :=
         default (Organization config) (assigned "FLY_ORG_ID=" lines);
       Region := Region config; CPUKind := CPUKind config;
       CPUs := CPUs config; MemoryMB := MemoryMB config |}.
Proof.
  induction lines as [|line lines IH] using rev_ind.
  - by destruct config.
  - rewrite foldl_app. simpl. rewrite IH, !assigned_snoc. unfold scanLine.
    destruct (HasPrefix line "FLY_API_TOKEN="),
      (HasPrefix line "FLY_ORG_ID="); done.
Qed.

(** X21. Without a YAML file, [loadConfig] takes the token and the
    organization from the last [FLY_API_TOKEN=] and [FLY_ORG_ID=] lines
    of [.docktor.env], which override the environment variables also
    when the value on the line is empty, and from the environment when
    there is no such line; it fails when the token, or else the
    organization, is empty, and otherwise returns them with the region
    ["iad"]. *)
Theorem loadConfig_precedence (i : Inputs) (lines : list string) :
  (cfgFile i ≠ "" ∨ ∃ home, homeDir i = inl home) →
  (dotEnv i = Some (inl lines) ∨ (dotEnv i = None ∧ lines = [])) →
  yaml i = None →
  loadConfig i
  = let token := default (FLY_API_TOKEN i) (assigned "FLY_API_TOKEN=" lines) in
    let org := default (FLY_ORG_ID i) (assigned "FLY_ORG_ID=" lines) in
    if String.eqb token "" then
      inr (External "FLY_API_TOKEN is required. Set it in .docktor.env or as an environment variable")
    else if String.eqb org "" then
      inr (External "FLY_ORG_ID is required. Set it in .docktor.env or as an environment variable")
    else inl {| APIToken := token; Organization := org; Region := "iad";
                CPUKind := ""; CPUs := 0; MemoryMB := 0 |}.
Proof.
  intros Hhome Henv Hyaml. unfold loadConfig.
  assert (∃ h, (if String.eqb (cfgFile i) "" then homeDir i else inl "")
               = inl h) as [h ->].
  { destruct (String.eqb_spec (cfgFile i) "") as [Hc|Hc]; [|eauto].
    destruct Hhome as [?|[home ->]]; [done|eauto]. }
  rewrite Hyaml.
  set (start := if negb (String.eqb (FLY_ORG_ID i) "") then _ else _).
  assert (start = {| APIToken := FLY_API_TOKEN i; Organization := FLY_ORG_ID i;
                     Region := ""; CPUKind := ""; CPUs := 0; MemoryMB := 0 |})
    as ->.
  { unfold start, setAPIToken, setOrganization.
    destruct (String.eqb_spec (FLY_API_TOKEN i) "") as [->|_];
      destruct (String.eqb_spec (FLY_ORG_ID i) "") as [->|_]; done. }
  destruct Henv as [->|[-> ->]].
  - rewrite scan_lines. simpl.
    destruct (String.eqb _ ""); [done|]. destruct (String.eqb _ ""); done.
  - simpl.
    destruct (String.eqb _ ""); [done|]. destruct (String.eqb _ ""); done.
Qed.

Definition shadowed : Inputs :=
  {| cfgFile := ""; homeDir := inl "/home/u";
     FLY_API_TOKEN := "fo1_from_env"; FLY_ORG_ID := "personal";
     dotEnv := Some (inl ["# local settings"; "FLY_API_TOKEN=old";
                          "FLY_API_TOKEN="]);
     yaml := None |}.

Lemma loadConfig_precedence_witness :
  loadConfig shadowed
  = inr (External "FLY_API_TOKEN is required. Set it in .docktor.env or as an environment variable").
Proof.
  apply (loadConfig_precedence shadowed
           ["# local settings"; "FLY_API_TOKEN=old"; "FLY_API_TOKEN="]).
  - right. exists "/home/u". reflexivity.
  - left. reflexivity.
  - reflexivity.
Defined.

(** X22. When [os.Stat] finds [.docktor.env], [initCmd] returns an
    error and writes nothing; it writes the file exactly when it returns
    no error; and what it writes is the project id and the region read,
    ["global"] when the region read is empty, followed by the service
    account and key path exactly when the answer read is [y] or [Y], in
    which case both values read are not empty and [os.Stat] has not
    reported the key file as missing. *)
Theorem initCmd_writes (os : InitOS) (a : Answers) :
  (envExists os = true →
   initCmd os a = (None, Some (External ".docktor.env already exists")))
  ∧ (is_Some (initCmd os a).1 ↔ (initCmd os a).2 = None)
  ∧ (∀ content, (initCmd os a).1 = Some content →
       envExists os = false ∧ gcpProjectID a ≠ ""
       ∧ let region :=
           if String.eqb (gcpRegion a) "" then "global" else gcpRegion a in
         let base := "GCP_PROJECT_ID=" +:+ gcpProjectID a +:+ newline
                     +:+ "GCP_REGION=" +:+ region +:+ newline in
         if String.eqb (useServiceAccount a) "y"
            || String.eqb (useServiceAccount a) "Y"
         then gcpServiceAccount a ≠ "" ∧ gcpServiceKeyPath a ≠ ""
              ∧ keyMissing os (gcpServiceKeyPath a) = false
              ∧ content
                = base +:+ "GCP_SERVICE_ACCOUNT=" +:+ gcpServiceAccount a
                  +:+ newline +:+ "GCP_SERVICE_KEY_PATH="
                  +:+ gcpServiceKeyPath a +:+ newline
         else content = base).
Proof.
  unfold initCmd. split; [by intros ->|].
  destruct (envExists os).
  { split; [split; [intros [? [=]]|intros [=]]|intros ? [=]]. }
  destruct (String.eqb_spec (gcpProjectID a) "") as [Hid|Hid].
  { split; [split; [intros [? [=]]|intros [=]]|intros ? [=]]. }
  destruct (String.eqb (useServiceAccount a) "y"
            || String.eqb (useServiceAccount a) "Y").
  - destruct (String.eqb_spec (gcpServiceAccount a) "") as [Hsa|Hsa].
    { split; [split; [intros [? [=]]|intros [=]]|intros ? [=]]. }
    destruct (String.eqb_spec (gcpServiceKeyPath a) "") as [Hkey|Hkey].
    { split; [split; [intros [? [=]]|intros [=]]|intros ? [=]]. }
    destruct (keyMissing os (gcpServiceKeyPath a)).
    { split; [split; [intros [? [=]]|intros [=]]|intros ? [=]]. }
    destruct (writeFault os).
    { split; [split; [intros [? [=]]|intros [=]]|intros ? [=]]. }
    split; [split; eauto|]. intros content [=<-]. repeat split; try done.
    unfold envContent.
    destruct (String.eqb_spec (gcpServiceAccount a) "") as [|_]; [done|].
    destruct (String.eqb_spec (gcpServiceKeyPath a) "") as [|_]; done.
  - destruct (writeFault os).
    { split; [split; [intros [? [=]]|intros [=]]|intros ? [=]]. }
    split; [split; eauto|]. intros content [=<-]. repeat split; done.
Qed.

Definition freshDir : InitOS :=
  {| envExists := false; keyMissing := λ _, false; writeFault := None |}.

Definition withKey : Answers :=
  {| gcpProjectID := "my-project"; gcpRegion := ""; useServiceAccount := "Y";
     gcpServiceAccount := "ci@my-project.iam.gserviceaccount.com";
     gcpServiceKeyPath := "key.json" |}.

Lemma initCmd_writes_witness :
  initCmd {| envExists := true; keyMissing := λ _, false; writeFault := None |}
          withKey
  = (None, Some (External ".docktor.env already exists"))
  ∧ (initCmd freshDir withKey).2 = None
  ∧ ∃ content,
      (initCmd freshDir withKey).1 = Some content
      ∧ content
        = "GCP_PROJECT_ID=" +:+ "my-project" +:+ newline
          +:+ "GCP_REGION=" +:+ "global" +:+ newline
          +:+ "GCP_SERVICE_ACCOUNT=" +:+ "ci@my-project.iam.gserviceaccount.com"
          +:+ newline +:+ "GCP_SERVICE_KEY_PATH=" +:+ "key.json" +:+ newline.
Proof.
  split; [|split].
  - apply (proj1 (initCmd_writes _ withKey)). reflexivity.
  - apply (proj1 (proj2 (initCmd_writes freshDir withKey))).
    eexists. reflexivity.
  - eexists. split; [reflexivity|].
    apply (proj2 (proj2 (initCmd_writes freshDir withKey)) _ eq_refl).
Defined.

Lemma issues_loop (issues : list Issue) (out : list output) :
  foldl (λ out issue, out ++ printIssue issue) out issues
  = out ++ flat_map printIssue issues.
Proof.
  revert out. induction issues as [|x l IH]; intros out; simpl.
  - by rewrite app_nil_r.
  - rewrite IH, <- app_assoc. done.
Qed.

(** X23. The lint command fails only when a call fails: once
    [LintDockerfile] has returned, the command returns no error however
    many issues were found, and prints either the line for no issues or
    the number of issues followed by three lines for each issue, in the
    order received. *)
Theorem lintCmd_reports_issues
    (c : LintCalls) (absContext : string) (issues : list Issue) :
  LoadConfig c = None → NewClient c = None → Abs c = inl absContext →
  LintDockerfile c absContext = inl issues →
  (lintCmd c).2 = None
  ∧ (lintCmd c).1
    = match issues with
      | [] => [Println "✅ No issues found in your Dockerfile!"]
      | _ => Printf "\n🔍 Found %d issues in your Dockerfile:\n\n"
                    [Int (Z.of_nat (length issues))]
             :: flat_map printIssue issues
      end
  ∧ (issues ≠ [] → length (lintCmd c).1 = (1 + 3 * length issues)%nat).
Proof.
  intros Hcfg Hcli Habs Hlint. unfold lintCmd.
  rewrite Hcfg, Hcli, Habs, Hlint.
  destruct issues as [|x l]; [done|].
  rewrite bool_decide_eq_false_2 by done. cbn [fst snd].
  rewrite issues_loop. split; [done|]. split; [done|]. intros _.
  assert (∀ l', length (flat_map printIssue l') = (3 * length l')%nat) as Hlen.
  { induction l' as [|y l' IH]; [done|].
    cbn [flat_map]. rewrite length_app, IH. simpl. lia. }
  rewrite length_app, Hlen. simpl. lia.
Qed.

Definition twoIssues : LintCalls :=
  {| LoadConfig := None; NewClient := None; Abs := inl "/work";
     LintDockerfile := λ _,
       inl [ mkIssue 1 "Always tag the version of an image explicitly" "warning" "DL3006";
             mkIssue 7 "Pin versions in apt get install" "warning" "DL3008" ] |}.

Lemma lintCmd_reports_issues_witness :
  (lintCmd twoIssues).2 = None ∧ length (lintCmd twoIssues).1 = 7%nat.
Proof.
  pose proof (lintCmd_reports_issues twoIssues "/work" _
                eq_refl eq_refl eq_refl eq_refl) as (H1 & _ & H3).
  split; [exact H1|]. apply H3. discriminate.
Defined.

End CmdMoreFacts.

(* ================================================================== *)
(** ** The scan command and its errors *)
(* ================================================================== *)

Module ScanCmdFacts.
Import Gcp Cmd.

(** The calls of a run with another cleanup. *)
Definition withCleanup (c : Calls) (cleanup : string → option error) : Calls :=
  {| LoadConfig := LoadConfig c; NewClient := NewClient c;
     AbsContext := AbsContext c; AbsDockerfile := AbsDockerfile c;
     BuildAndScanImage := BuildAndScanImage c; Cleanup := cleanup |}.

(** X24. The scan command returns no error exactly when the
    configuration loads, the client is created, both paths resolve and
    the build and scan succeeds; when it returns an error the cleanup
    plays no part: the output and the error are the same whatever the
    cleanup would do, so the uploaded archive of a failed run is left in
    the bucket. *)
Theorem scanCmd_fails_before_cleanup (c : Calls) (cleanup : string → option error) :
  ((scanCmd c).2 = None
   ↔ LoadConfig c = None ∧ NewClient c = None
     ∧ ∃ absContextPath absDockerfilePath result,
         AbsContext c = inl absContextPath
         ∧ AbsDockerfile c = inl absDockerfilePath
         ∧ BuildAndScanImage c absContextPath absDockerfilePath = inl result)
  ∧ (is_Some (scanCmd c).2 → scanCmd (withCleanup c cleanup) = scanCmd c).
Proof.
  unfold scanCmd, withCleanup. simpl.
  destruct (LoadConfig c); [split; [split; [done|intros [[=] _]]|done]|].
  destruct (NewClient c); [split; [split; [done|intros (_ & [=] & _)]|done]|].
  destruct (AbsContext c) as [ctx|e];
    [|split; [split; [done|intros (_ & _ & ? & ? & ? & [=] & _)]|done]].
  destruct (AbsDockerfile c) as [df|e];
    [|split; [split; [done|intros (_ & _ & ? & ? & ? & _ & [=] & _)]|done]].
  destruct (BuildAndScanImage c ctx df) as [result|e] eqn:Hrun.
  - split.
    + split; [intros _; eauto 10|]. intros _.
      destruct (Cleanup c (ID result)); done.
    + destruct (Cleanup c (ID result)); simpl; intros [? [=]].
  - split; [|done]. split; [done|].
    intros (_ & _ & ctx' & df' & r & [=<-] & [=<-] & Hr). congruence.
Qed.

Definition brokenBuild : Calls :=
  {| LoadConfig := None; NewClient := None;
     AbsContext := inl "/work"; AbsDockerfile := inl "/work/Dockerfile";
     BuildAndScanImage := λ _ _,
       inr (Errorf "failed to get operation status"
                   (External "googleapi: Error 503"));
     Cleanup := λ _, None |}.

Lemma scanCmd_fails_before_cleanup_witness :
  scanCmd (withCleanup brokenBuild (λ _, Some (External "403 Forbidden")))
  = scanCmd brokenBuild.
Proof.
  apply (proj2 (scanCmd_fails_before_cleanup brokenBuild
                  (λ _, Some (External "403 Forbidden")))).
  eexists. reflexivity.
Defined.

End ScanCmdFacts.
